(** * Stale-Repository-Checker: a shallow embedding of [main.py]

    The program walks a root directory with [os.walk], asks GitPython about
    every sub-directory it meets, keeps the ones that are "stale" and prints
    one block per kept directory.

    Conventions of the embedding:
    - Python [int] is [Z]; Python [str] is [string] (compared the way Python
      compares strings, position by position on character codes);
    - a call that may raise returns [res A]: [Ok v] or [Raise e];
    - [print] appends one entry to a list of printed texts, [logger.<level>]
      appends one record to a list of log records;
    - the file system and GitPython are not part of the program: the
      directory tree is a value of type [Tree], and what [Repo(path)]
      does is a function from paths to [res Repo]. *)

From Stdlib Require Import ZArith List Bool Ascii String Lia.
From Stdlib Require Import Permutation Sorted DecimalString.
Import ListNotations.

#[local] Open Scope string_scope.
#[local] Open Scope Z_scope.

(* ================================================================== *)
(** ** Python strings *)

Module PyStr.

(** The character ["\n"]. *)
Definition LF : ascii := "010"%char.
(** The character ["\t"], default of [--indent]. *)
Definition TAB : ascii := "009"%char.
(** The character ["\033"] that starts every colorama code. *)
Definition ESC : ascii := "027"%char.

Definition nl : string := String LF EmptyString.

(** [s * n] on Python strings: no copy at all when [n <= 0]. *)
Fixpoint repeat_nat (s : string) (n : nat) : string :=
  match n with
  | O => ""
  | S k => s ++ repeat_nat s k
  end.

Definition mul (s : string) (n : Z) : string := repeat_nat s (Z.to_nat n).

(** [s.replace(old, new)] for a non-empty [old]: the occurrences of [old]
    are found from left to right and do not overlap.  [skip] counts the
    characters of an occurrence already replaced that are still to be
    dropped. *)
Fixpoint replace_from (old new : string) (skip : nat) (s : string) : string :=
  match s with
  | EmptyString => EmptyString
  | String c rest =>
      match skip with
      | S k => replace_from old new k rest
      | O =>
          if prefix old s
          then new ++ replace_from old new (Nat.pred (String.length old)) rest
          else String c (replace_from old new O rest)
      end
  end.

Definition replace (old new s : string) : string := replace_from old new O s.

(** [s.split("\n")]: the lines of [s]; a text without ["\n"] is one line,
    the empty text is one empty line. *)
Fixpoint split_lines (s : string) : list string :=
  match s with
  | EmptyString => [EmptyString]
  | String c rest =>
      if Ascii.eqb c LF then EmptyString :: split_lines rest
      else match split_lines rest with
           | [] => [String c EmptyString]
           | l :: ls => String c l :: ls
           end
  end.

(** ["\n".join(ls)]. *)
Definition join_lines (ls : list string) : string := String.concat nl ls.

(** Does [s] contain the character [c]? *)
Fixpoint mem_char (c : ascii) (s : string) : bool :=
  match s with
  | EmptyString => false
  | String d rest => Ascii.eqb c d || mem_char c rest
  end.

(** [s.strip()] on ASCII white space, removed at both ends.  Python also
    removes the white space outside ASCII; the texts this program strips
    are empty or start with a quote and end with a full stop. *)
Definition is_space (c : ascii) : bool :=
  let n := nat_of_ascii c in
  (Nat.eqb n 32 || (Nat.leb 9 n && Nat.leb n 13) || (Nat.leb 28 n && Nat.leb n 31))%bool.

Fixpoint lstrip (s : string) : string :=
  match s with
  | EmptyString => EmptyString
  | String c rest => if is_space c then lstrip rest else s
  end.

Fixpoint rstrip (s : string) : string :=
  match s with
  | EmptyString => EmptyString
  | String c rest =>
      match rstrip rest with
      | EmptyString => if is_space c then EmptyString else String c EmptyString
      | r => String c r
      end
  end.

Definition strip (s : string) : string := rstrip (lstrip s).

(** [str(n)] for a non-negative integer, as [abs(diff)] is printed. *)
Definition of_abs (z : Z) : string := NilZero.string_of_uint (N.to_uint (Z.abs_N z)).

(** [a <= b] on Python strings. *)
Definition le (a b : string) : Prop := String.leb a b = true.

End PyStr.

(* ================================================================== *)
(** ** Exceptions and dynamically typed values *)

(** The exception classes the program can meet.  All of them derive from
    [Exception]; only the first has a handler of its own. *)
Inductive exn_class : Type :=
| InvalidGitRepositoryError
| NoSuchPathError
| PermissionError
| GitCommandError
| TypeError
| ValueError
| IndexError
| AttributeError.

Record exn : Type := mkExn { exn_cls : exn_class; exn_msg : string }.

Inductive res (A : Type) : Type :=
| Ok (a : A)
| Raise (e : exn).
Arguments Ok {A} a.
Arguments Raise {A} e.

Definition bind {A B : Type} (m : res A) (k : A -> res B) : res B :=
  match m with
  | Ok a => k a
  | Raise e => Raise e
  end.

Notation "x <- m ;; k" := (bind m (fun x => k))
  (at level 61, m at next level, right associativity).

(** A function annotated [-> bool] or [-> str] may still return an [int]:
    the annotation is not enforced.  [pyval] keeps the dynamic type. *)
Inductive pyval : Type :=
| PyBool (b : bool)
| PyInt (z : Z)
| PyStr (s : string).

(** Truth value, as [if v:] and [not v] compute it. *)
Definition truthy (v : pyval) : bool :=
  match v with
  | PyBool b => b
  | PyInt z => negb (z =? 0)
  | PyStr s => negb (String.eqb s "")
  end.

Definition is_str (v : pyval) : bool := match v with PyStr _ => true | _ => false end.

(* ================================================================== *)
(** ** Logging *)

Inductive level : Type := DEBUG | INFO | WARNING | ERROR.

(** The numeric values of the [logging] module. *)
Definition level_no (l : level) : Z :=
  match l with DEBUG => 10 | INFO => 20 | WARNING => 30 | ERROR => 40 end.

Record log_record : Type := mkLog { log_level : level; log_text : string }.

(** [setup_logging]: the level given to the module's logger. *)
Definition setup_logging (verbosity : Z) : Z := 40 - 10 * Z.min 3 verbosity.

(* ================================================================== *)
(** ** [insert_indentation] *)

Definition insert_indentation (text indentation : string) (quantity : Z) : string :=
  let ident := PyStr.mul indentation quantity in
  ident ++ PyStr.replace PyStr.nl (PyStr.nl ++ ident) text.

(* ================================================================== *)
(** ** Depth validation of the start-up code *)

(** Lines 323-327.  The condition is the chained comparison
    [1 > depth > 99], that is [1 > depth and depth > 99]. *)
Definition validate_depth (depth : Z) : Z * list log_record :=
  if ((1 >? depth) && (depth >? 99))%bool
  then (1, [mkLog WARNING
              ("Depth '" ++ NilZero.string_of_int (Z.to_int depth)
                 ++ "' is outside of range 1-99. Defaulting to 1!")])
  else (Z.max (Z.min depth 99) 1, []).

Definition effective_depth (depth : Z) : Z := fst (validate_depth depth).
Definition depth_warned (depth : Z) : bool :=
  match snd (validate_depth depth) with [] => false | _ => true end.

(* ================================================================== *)
(** ** GitPython, as far as the program uses it *)

Module Git.

(** [repo.active_branch]: a local head. Commits are named by their hash. *)
Record Head : Type := mkHead { head_name : string; head_commit : string }.

(** An element of [remote.refs], such as [origin/main]. *)
Record RemoteRef : Type := mkRef { ref_name : string; ref_commit : string }.

(** A remote; [refs_getitem n] is what [remote.refs[n]] evaluates to
    ([IndexError] when the remote has no such reference). *)
Record Remote : Type := mkRemote {
  remote_name : string;
  refs_getitem : string -> res RemoteRef
}.

(** What the program can observe of an opened repository.
    - [staged]: the paths whose index entry differs from [HEAD]
      ([git diff --cached]);
    - [unstaged]: the paths whose working-tree file differs from the index
      ([git diff], [repo.index.diff(None)]);
    - [untracked_files]: [repo.untracked_files];
    - [active_branch]: raises [TypeError] on a detached [HEAD];
    - [rev_list h]: the commits reachable from commit [h], [h] included
      ([git rev-list h]). *)
Record Repo : Type := mkRepo {
  bare : bool;
  staged : res (list string);
  unstaged : res (list string);
  untracked_files : res (list string);
  active_branch : res Head;
  remotes : list Remote;
  rev_list : string -> list string
}.

Definition nonempty {A : Type} (l : list A) : bool :=
  match l with [] => false | _ => true end.

(** [Repo.is_dirty(index, working_tree, untracked_files)], whose defaults
    are [True], [True] and [False]. *)
Definition is_dirty (index working_tree untracked : bool) (r : Repo) : res bool :=
  if bare r then Ok false else
  d1 <- (if index then l <- staged r ;; Ok (nonempty l) else Ok false) ;;
  if d1 then Ok true else
  d2 <- (if working_tree then l <- unstaged r ;; Ok (nonempty l) else Ok false) ;;
  if d2 then Ok true else
  d3 <- (if untracked then l <- untracked_files r ;; Ok (nonempty l) else Ok false) ;;
  Ok d3.

(** [repo.is_dirty()] with every argument left at its default. *)
Definition is_dirty_default (r : Repo) : res bool := is_dirty true true false r.

(** [repo.remote()], that is the remote called [origin]. *)
Fixpoint find_remote (n : string) (l : list Remote) : option Remote :=
  match l with
  | [] => None
  | x :: l' => if String.eqb (remote_name x) n then Some x else find_remote n l'
  end.

Definition remote (r : Repo) : res Remote :=
  match find_remote "origin" (remotes r) with
  | Some x => Ok x
  | None => Raise (mkExn ValueError "Remote named 'origin' didn't exist")
  end.

(** [commit.count()]: how many commits are reachable from the commit. *)
Definition count (r : Repo) (h : string) : Z := Z.of_nat (List.length (rev_list r h)).

Definition mem (h : string) (l : list string) : bool := existsb (String.eqb h) l.

(** The commits of [a] that [b] does not have. *)
Definition only_in (r : Repo) (a b : string) : list string :=
  filter (fun h => negb (mem h (rev_list r b))) (rev_list r a).

(** How far commit [a] is ahead of commit [b]. *)
Definition ahead (r : Repo) (a b : string) : Z := Z.of_nat (List.length (only_in r a b)).

(** How far commit [a] is behind commit [b]. *)
Definition behind (r : Repo) (a b : string) : Z := ahead r b a.

(** [git rev-list] names every reachable commit once. *)
Fixpoint distinct (l : list string) : bool :=
  match l with
  | [] => true
  | h :: t => (negb (mem h t) && distinct t)%bool
  end.

Definition history_ok (r : Repo) (h : string) : Prop := distinct (rev_list r h) = true.

End Git.

(* ================================================================== *)
(** ** The file system *)

(** A directory that [os.walk] can list has named sub-directories; one that
    it cannot list (unreadable, or a symbolic link, which [os.walk] does not
    follow) still shows up in its parent's listing. *)
#[warnings="-register-all"]
Inductive Tree : Type :=
| Unlisted
| Listing (entries : list (string * Tree)).

(** [os.path.join(a, b)] of [posixpath]. *)
Definition SEP : ascii := "/"%char.

Definition starts_with_sep (b : string) : bool :=
  match b with
  | String c _ => Ascii.eqb c SEP
  | EmptyString => false
  end.

Fixpoint ends_with_sep (a : string) : bool :=
  match a with
  | EmptyString => false
  | String c EmptyString => Ascii.eqb c SEP
  | String _ rest => ends_with_sep rest
  end.

Definition path_join (a b : string) : string :=
  if starts_with_sep b then b
  else if (String.eqb a "" || ends_with_sep a)%bool then a ++ b
  else a ++ String SEP b.

(** [os.walk(top)], top-down: one triple per directory that can be listed,
    the directory itself before its sub-directories, those in listing order.
    The program never reads the third component (the plain files), which is
    left out. *)
Fixpoint walk (top : string) (t : Tree) {struct t} : list (string * list string) :=
  match t with
  | Unlisted => []
  | Listing entries =>
      (top, map fst entries)
        :: flat_map (fun e => walk (path_join top (fst e)) (snd e)) entries
  end.

(** A directory entry has a non-empty name without ["/"]. *)
Definition name_ok (n : string) : bool :=
  (negb (String.eqb n "") && negb (PyStr.mem_char SEP n))%bool.

Fixpoint names_ok (t : Tree) : bool :=
  match t with
  | Unlisted => true
  | Listing entries =>
      forallb (fun e => name_ok (fst e) && names_ok (snd e))%bool entries
  end.

(** Induction on directory trees: a property that holds of a listing
    whenever it holds of every listed sub-directory holds of all trees. *)

Section TreeInduction.

Variable P : Tree -> Prop.
Hypothesis P_unlisted : P Unlisted.
Hypothesis P_listing :
  forall entries, Forall (fun e => P (snd e)) entries -> P (Listing entries).

Fixpoint Tree_nested_ind (t : Tree) : P t :=
  match t with
  | Unlisted => P_unlisted
  | Listing entries =>
      P_listing entries
        ((fix all (l : list (string * Tree)) : Forall (fun e => P (snd e)) l :=
            match l with
            | [] => Forall_nil _
            | e :: l' => Forall_cons e (Tree_nested_ind (snd e)) (all l')
            end) entries)
  end.

End TreeInduction.

(** What [Repo(path)] does, for every path. *)
Definition World : Type := string -> res Git.Repo.

(* ================================================================== *)
(** ** The repository queries of [main.py] *)

Definition get_repo_commit_diff (repo : Git.Repo) : res Z :=
  local_branch <- Git.active_branch repo ;;
  if (Z.of_nat (List.length (Git.remotes repo)) =? 0) then Ok 0 else
  remote <- Git.remote repo ;;
  remote_branch <- Git.refs_getitem remote (Git.head_name local_branch) ;;
  Ok (Git.count repo (Git.head_commit local_branch)
      - Git.count repo (Git.ref_commit remote_branch)).

Definition status_text (adverb local_name remote_name : string) (diff : Z) : string :=
  "'" ++ local_name ++ "' is " ++ adverb ++ " '" ++ remote_name ++ "' by "
      ++ PyStr.of_abs diff ++ " commits.".

Definition get_repo_status (repo : Git.Repo) : res pyval :=
  let status := "" in
  diff <- get_repo_commit_diff repo ;;
  if negb (diff =? 0) then
    let adverb := if diff >? 0 then "ahead" else "behind" in
    local_branch <- Git.active_branch repo ;;
    if (Z.of_nat (List.length (Git.remotes repo)) =? 0) then Ok (PyInt 0) else
    remote <- Git.remote repo ;;
    branch_again <- Git.active_branch repo ;;
    remote_branch <- Git.refs_getitem remote (Git.head_name branch_again) ;;
    Ok (PyStr (status ++ status_text adverb (Git.head_name local_branch)
                                     (Git.ref_name remote_branch) diff))
  else Ok (PyStr status).

Definition get_repo_modified_files (repo : Git.Repo) : res (list string) :=
  Git.unstaged repo.

Definition get_repo_untracked_files (repo : Git.Repo) : res (list string) :=
  Git.untracked_files repo.

Definition is_repo_dirty (repo : Git.Repo) : res pyval :=
  is_dirty <- Git.is_dirty_default repo ;;
  if negb is_dirty then
    local_branch <- Git.active_branch repo ;;
    if (Z.of_nat (List.length (Git.remotes repo)) =? 0) then Ok (PyInt 0) else
    remote <- Git.remote repo ;;
    remote_branch <- Git.refs_getitem remote (Git.head_name local_branch) ;;
    Ok (PyBool (negb (String.eqb (Git.head_commit local_branch)
                                 (Git.ref_commit remote_branch))))
  else Ok (PyBool is_dirty).

(* ================================================================== *)
(** ** [check_directory] *)

Record RepoFiles : Type := mkFiles { modified : list string; untracked : list string }.

(** [RepoFiles()], the default of [StaleResult.files]. *)
Definition RepoFiles_default : RepoFiles := mkFiles [] [].

Record StaleResult : Type := mkResult {
  directory : string;
  stale : pyval;
  status_message : string;
  files : RepoFiles
}.

(** [StaleResult(directory, False)]. *)
Definition not_stale (d : string) : StaleResult :=
  mkResult d (PyBool false) "" RepoFiles_default.

(** The body of the [try]: the result it returns and what it logs, or the
    exception that leaves it.  Nothing is logged before the last call that
    can raise. *)
Definition check_try (world : World) (d : string) : res (StaleResult * list log_record) :=
  repo <- world d ;;
  m <- get_repo_modified_files repo ;;
  let files_modified := ([] ++ m)%list in
  u <- get_repo_untracked_files repo ;;
  let files_untracked := ([] ++ u)%list in
  is_dirty <- is_repo_dirty repo ;;
  let logs := if truthy is_dirty
              then [mkLog INFO ("Directory is dirty: [" ++ d ++ "]")] else [] in
  Ok (mkResult d is_dirty "" (mkFiles files_modified files_untracked), logs).

Definition check_directory (world : World) (d : string) : StaleResult * list log_record :=
  let entry := [mkLog DEBUG ("Checking directory: [" ++ d ++ "]")] in
  match check_try world d with
  | Ok (result, logs) => (result, (entry ++ logs)%list)
  | Raise e =>
      match exn_cls e with
      | InvalidGitRepositoryError =>
          (not_stale d,
           (entry ++ [mkLog DEBUG ("Directory is not a git repository: [" ++ d ++ "]")])%list)
      | _ =>
          (not_stale d,
           (entry ++ [mkLog ERROR ("Error checking directory: " ++ exn_msg e)])%list)
      end
  end.

(* ================================================================== *)
(** ** Output helpers *)

(** The parsed command line. *)
Record Args : Type := mkArgs {
  root : string;
  verbose : Z;
  depth : Z;
  list_files : bool;
  colorize : bool;
  status : bool;
  indent : string
}.

(** The colorama codes the program uses. *)
Module Color.
Definition code (n : string) : string := String PyStr.ESC ("[" ++ n ++ "m").

Definition GREEN := code "32".
Definition LIGHTRED_EX := code "91".
Definition LIGHTGREEN_EX := code "92".
Definition LIGHTYELLOW_EX := code "93".
Definition LIGHTCYAN_EX := code "96".
Definition LIGHTWHITE_EX := code "97".
Definition BRIGHT := code "1".
Definition DIM := code "2".
Definition RESET_ALL := code "0".
End Color.

Definition COLOR_REPO      := Color.GREEN.
Definition COLOR_STATUS    := Color.LIGHTCYAN_EX.
Definition COLOR_FILE      := Color.LIGHTWHITE_EX.
Definition COLOR_UNTRACKED := Color.LIGHTYELLOW_EX.
Definition COLOR_MODIFIED  := Color.LIGHTRED_EX.

Definition STYLE_REPO      := Color.BRIGHT.
Definition STYLE_STATUS    := Color.BRIGHT.
Definition STYLE_FILE      := Color.DIM.
Definition STYLE_UNTRACKED := Color.DIM.
Definition STYLE_MODIFIED  := Color.DIM.

(** Every helper returns the texts it prints, one per call of [print]. *)
Definition output_repo (args : Args) (result : StaleResult) (diff : Z) : list string :=
  let diff_sign := if diff >? 0 then "+" else "-" in
  if colorize args then
    let color_diff := if diff >? 0 then Color.LIGHTGREEN_EX else Color.LIGHTRED_EX in
    [COLOR_REPO ++ STYLE_REPO ++ directory result ++ Color.RESET_ALL ++ " ["
       ++ color_diff ++ diff_sign ++ PyStr.of_abs diff ++ Color.RESET_ALL ++ "]"
       ++ Color.RESET_ALL]
  else
    [directory result ++ " [" ++ diff_sign ++ PyStr.of_abs diff ++ "]"].

(** [status.strip()] needs a string: an [int] has no such method. *)
Definition output_status (args : Args) (st : pyval) : res (list string) :=
  if negb (status args) then Ok [] else
  match st with
  | PyStr s =>
      let s := PyStr.strip s in
      let s := if colorize args
               then COLOR_STATUS ++ STYLE_STATUS ++ s ++ Color.RESET_ALL else s in
      Ok [insert_indentation s (indent args) 1]
  | _ => Raise (mkExn AttributeError "object has no attribute 'strip'")
  end.

Definition output_blank (args : Args) : list string :=
  if colorize args then [Color.RESET_ALL] else [""].

(** The inner [output_files] of [output_files]. *)
Definition output_names (args : Args) (names : list string) (color style : string)
  : list string :=
  map (fun name =>
         let text := if colorize args
                     then color ++ style ++ name ++ Color.RESET_ALL else name in
         insert_indentation text (indent args) 2) names.

Definition output_files (args : Args) (fl : RepoFiles) : list string :=
  if negb (status args) then [] else
  if list_files args then
    if ((Z.of_nat (List.length (modified fl)) =? 0)
        && (Z.of_nat (List.length (untracked fl)) =? 0))%bool then []
    else
      ((if Z.of_nat (List.length (modified fl)) >? 0
        then insert_indentation "Modified:" (indent args) 1
               :: output_names args (modified fl) COLOR_MODIFIED STYLE_MODIFIED
        else [])
       ++
       (if Z.of_nat (List.length (untracked fl)) >? 0
        then output_blank args
               ++ insert_indentation "Untracked:" (indent args) 1
               :: output_names args (untracked fl) COLOR_UNTRACKED STYLE_UNTRACKED
        else []))%list
  else [].

(* ================================================================== *)
(** ** [main] *)

(** The loop over [os.walk] (lines 275-285).  [results] and [logs] are the
    lists built so far. *)
Fixpoint walk_loop (world : World) (triples : list (string * list string))
    (walked_depth max_depth : Z)
    (results : list StaleResult) (logs : list log_record)
  : list StaleResult * list log_record :=
  match triples with
  | [] => (results, logs)
  | (subdir, dirs) :: rest =>
      let walked_depth := walked_depth + 1 in
      let checked := map (fun d => check_directory world (path_join subdir d)) dirs in
      let results := (results ++ map fst checked)%list in
      let logs := (logs ++ List.concat (map snd checked))%list in
      if walked_depth >=? max_depth then (results, logs)
      else walk_loop world rest walked_depth max_depth results logs
  end.

(** The results of the walk, before any filtering. *)
Definition scan (world : World) (tree : Tree) (root_directory : string) (max_depth : Z)
  : list StaleResult :=
  fst (walk_loop world (walk root_directory tree) 0 max_depth [] []).

(** [results.sort(key=lambda x: x[0])]: a stable sort on the directory. *)
Fixpoint insert_result (r : StaleResult) (l : list StaleResult) : list StaleResult :=
  match l with
  | [] => [r]
  | x :: l' =>
      if String.leb (directory r) (directory x) then r :: l
      else x :: insert_result r l'
  end.

Fixpoint sort_results (l : list StaleResult) : list StaleResult :=
  match l with
  | [] => []
  | r :: l' => insert_result r (sort_results l')
  end.

(** One turn of the printing loop for a stale result (lines 295-303): what
    it prints, and whether it ends normally. *)
Definition report (args : Args) (world : World) (result : StaleResult)
  : list string * res unit :=
  match (repo <- world (directory result) ;; get_repo_status repo) with
  | Raise e => ([], Raise e)
  | Ok st =>
      match (repo <- world (directory result) ;; get_repo_commit_diff repo) with
      | Raise e => ([], Raise e)
      | Ok diff =>
          let header := output_repo args result diff in
          match output_status args st with
          | Raise e => (header, Raise e)
          | Ok lines =>
              ((header ++ lines ++ output_files args (files result)
                  ++ output_blank args)%list, Ok tt)
          end
      end
  end.

Fixpoint print_loop (args : Args) (world : World) (results : list StaleResult)
  : list string * res unit :=
  match results with
  | [] => ([], Ok tt)
  | result :: rest =>
      if negb (truthy (stale result)) then print_loop args world rest
      else
        match report args world result with
        | (out, Raise e) => (out, Raise e)
        | (out, Ok _) =>
            let (out', o) := print_loop args world rest in ((out ++ out')%list, o)
        end
  end.

(** The block that the printing loop prints for one result. *)
Definition block (args : Args) (world : World) (result : StaleResult) : list string :=
  fst (report args world result).

(** The order in which results are printed. *)
Definition by_directory (a b : StaleResult) : Prop :=
  PyStr.le (directory a) (directory b).

(** The results that reach the printing loop. *)
Definition reported (world : World) (tree : Tree) (args : Args) : list StaleResult :=
  sort_results (filter (fun r => truthy (stale r))
                       (scan world tree (root args) (depth args))).

Record Run : Type := mkRun {
  printed : list string;
  logged : list log_record;
  outcome : res unit
}.

Definition main (args : Args) (world : World) (tree : Tree) : Run :=
  let root_directory := root args in
  let log0 := [mkLog INFO ("Checking root directory: " ++ root_directory)] in
  let (result, log1) := check_directory world root_directory in
  let max_depth := depth args in
  let (results, log2) :=
    walk_loop world (walk root_directory tree) 0 max_depth [] [] in
  let results := filter (fun r => truthy (stale r)) results in
  let results := sort_results results in
  let (out, o) := print_loop args world results in
  mkRun out (log0 ++ log1 ++ log2)%list o.

(* ================================================================== *)
(** ** The depth bound as the specification words it *)

(** The sub-directories within [d] levels below [top]: its entries are at
    level 1, their entries at level 2, and so on. *)
Fixpoint within_levels (d : nat) (top : string) (t : Tree) : list string :=
  match d with
  | O => []
  | S d' =>
      match t with
      | Unlisted => []
      | Listing entries =>
          flat_map (fun e => path_join top (fst e)
                               :: within_levels d' (path_join top (fst e)) (snd e))
                   entries
      end
  end.

(** The paths that the loop over [os.walk] hands to [check_directory]. *)
Fixpoint loop_paths (triples : list (string * list string)) (walked_depth max_depth : Z)
  : list string :=
  match triples with
  | [] => []
  | (subdir, dirs) :: rest =>
      let walked_depth := walked_depth + 1 in
      (map (path_join subdir) dirs
         ++ (if walked_depth >=? max_depth then []
             else loop_paths rest walked_depth max_depth))%list
  end.

(** The directories that a run checks for staleness during the walk. *)
Definition checked_dirs (tree : Tree) (root_directory : string) (max_depth : Z)
  : list string :=
  map directory (scan (fun _ => Raise (mkExn InvalidGitRepositoryError "")) tree
                      root_directory max_depth).

(* ================================================================== *)
(** ** Sample repositories, worlds and trees *)

Module Sample.

(** A small commit graph: [c0 <- a1 <- a2 <- a3] and [c0 <- r1]. *)
Definition commits : list (string * list string) :=
  [("c0", ["c0"]);
   ("a1", ["a1"; "c0"]);
   ("a2", ["a2"; "a1"; "c0"]);
   ("a3", ["a3"; "a2"; "a1"; "c0"]);
   ("r1", ["r1"; "c0"])].

Definition history (h : string) : list string :=
  match find (fun e => String.eqb (fst e) h) commits with
  | Some e => snd e
  | None => []
  end.

(** A remote [origin] whose only reference is [origin/main], at [c]. *)
Definition origin_at (c : string) : Git.Remote :=
  Git.mkRemote "origin"
    (fun n => if String.eqb n "main" then Ok (Git.mkRef "origin/main" c)
              else Raise (mkExn IndexError ("No item found with id 'origin/" ++ n ++ "'"))).

Definition on_main (c : string) : res Git.Head := Ok (Git.mkHead "main" c).

Definition detached : res Git.Head :=
  Raise (mkExn TypeError "HEAD is a detached symbolic reference").

(** Nothing to commit, no remote. *)
Definition clean_local : Git.Repo :=
  Git.mkRepo false (Ok []) (Ok []) (Ok []) (on_main "a1") [] history.

(** Nothing to commit, level with [origin/main]. *)
Definition clean_synced : Git.Repo :=
  Git.mkRepo false (Ok []) (Ok []) (Ok []) (on_main "a1") [origin_at "a1"] history.

(** One untracked file, everything else committed and pushed. *)
Definition untracked_synced : Git.Repo :=
  Git.mkRepo false (Ok []) (Ok []) (Ok ["notes.txt"]) (on_main "a1")
             [origin_at "a1"] history.

(** One untracked file, no remote. *)
Definition untracked_local : Git.Repo :=
  Git.mkRepo false (Ok []) (Ok []) (Ok ["notes.txt"]) (on_main "a1") [] history.

(** One modified tracked file, level with [origin/main]. *)
Definition modified_synced : Git.Repo :=
  Git.mkRepo false (Ok []) (Ok ["README.md"]) (Ok []) (on_main "a1")
             [origin_at "a1"] history.

(** One modified tracked file on a detached [HEAD]. *)
Definition modified_detached : Git.Repo :=
  Git.mkRepo false (Ok []) (Ok ["README.md"]) (Ok []) detached
             [origin_at "a1"] history.

(** Two commits ahead of [origin/main], none behind. *)
Definition ahead_two : Git.Repo :=
  Git.mkRepo false (Ok []) (Ok []) (Ok []) (on_main "a2") [origin_at "c0"] history.

(** Two commits behind [origin/main], none ahead. *)
Definition behind_two : Git.Repo :=
  Git.mkRepo false (Ok []) (Ok []) (Ok []) (on_main "c0") [origin_at "a2"] history.

(** Diverged: three commits that [origin/main] lacks, one that it has
    and the local branch lacks. *)
Definition diverged : Git.Repo :=
  Git.mkRepo false (Ok []) (Ok []) (Ok []) (on_main "a3") [origin_at "r1"] history.

(** A world in which exactly the listed paths are repositories. *)
Definition world_of (l : list (string * Git.Repo)) : World :=
  fun p =>
    match find (fun e => String.eqb (fst e) p) l with
    | Some e => Ok (snd e)
    | None => Raise (mkExn InvalidGitRepositoryError p)
    end.

(** A world in which opening any path is refused. *)
Definition unreadable : World :=
  fun _ => Raise (mkExn PermissionError "[Errno 13] Permission denied").

(** [root] holds [a] and [b]; [a] holds [a1], [b] holds [b1]. *)
Definition two_branches : Tree :=
  Listing [("a", Listing [("a1", Listing [])]);
           ("b", Listing [("b1", Listing [])])].

(** [root] holds [a] and [b]. *)
Definition two_dirs : Tree := Listing [("a", Listing []); ("b", Listing [])].

(** [root] holds the single directory [a]. *)
Definition one_dir : Tree := Listing [("a", Listing [])].

Definition plain_args (r : string) (d : Z) : Args :=
  mkArgs r 0 d false false true (String PyStr.TAB EmptyString).

End Sample.

(* ================================================================== *)
(** ** Views used by the further properties *)

(** [logger.getEffectiveLevel()] after [setup_logging]: the level set on the
    module's logger, or, were it [NOTSET] (0), the level [ERROR] that
    [basicConfig] gives the root logger. *)
Definition effective_level (verbosity : Z) : Z :=
  if setup_logging verbosity =? 0 then 40 else setup_logging verbosity.

(** [logger.isEnabledFor]: is a record handed to the handler? *)
Definition shown (verbosity : Z) (r : log_record) : bool :=
  level_no (log_level r) >=? effective_level verbosity.

(** The two records that a successful check can log. *)
Definition entry_record (d : string) : log_record :=
  mkLog DEBUG ("Checking directory: [" ++ d ++ "]").

Definition dirty_record (d : string) : log_record :=
  mkLog INFO ("Directory is dirty: [" ++ d ++ "]").

(** The sub-directories that a triple of [os.walk] lists, as full paths. *)
Definition triple_paths (tr : string * list string) : list string :=
  map (path_join (fst tr)) (snd tr).

(** The results whose turn of the printing loop ends normally, up to the
    first one whose turn raises. *)
Fixpoint printed_prefix (args : Args) (world : World) (rs : list StaleResult)
  : list StaleResult :=
  match rs with
  | [] => []
  | r :: rest =>
      match snd (report args world r) with
      | Ok _ => r :: printed_prefix args world rest
      | Raise _ => []
      end
  end.

Module Cases.

(** A remote that is not called [origin]. *)
Definition upstream_at (c : string) : Git.Remote :=
  Git.mkRemote "upstream"
    (fun n => if String.eqb n "main" then Ok (Git.mkRef "upstream/main" c)
              else Raise (mkExn IndexError ("No item found with id 'upstream/" ++ n ++ "'"))).

(** Clean, on [main], with the single remote [upstream]. *)
Definition upstream_only : Git.Repo :=
  Git.mkRepo false (Ok []) (Ok []) (Ok []) (Sample.on_main "a1")
             [upstream_at "a1"] Sample.history.

(** Clean, on the branch [feature], which [origin] does not have. *)
Definition unpushed : Git.Repo :=
  Git.mkRepo false (Ok []) (Ok []) (Ok []) (Ok (Git.mkHead "feature" "a2"))
             [Sample.origin_at "a1"] Sample.history.

(** Clean, on a detached [HEAD]. *)
Definition clean_detached : Git.Repo :=
  Git.mkRepo false (Ok []) (Ok []) (Ok []) Sample.detached
             [Sample.origin_at "a1"] Sample.history.

(** One staged change, nothing else, no remote. *)
Definition staged_local : Git.Repo :=
  Git.mkRepo false (Ok ["setup.py"]) (Ok []) (Ok []) (Sample.on_main "a1")
             [] Sample.history.

(** Diverged evenly, nothing to commit: one commit that [origin/main]
    lacks, one that it has and the local branch lacks. *)
Definition diverged_even : Git.Repo :=
  Git.mkRepo false (Ok []) (Ok []) (Ok []) (Sample.on_main "a1")
             [Sample.origin_at "r1"] Sample.history.

(** Only untracked files, listed with [-l]. *)
Definition listing_args : Args :=
  mkArgs "root" 0 1 true false true (String PyStr.TAB EmptyString).

End Cases.

(* ################################################################## *)
(** * Properties *)

(* ================================================================== *)
(** ** Strings and [insert_indentation] *)

Section Strings.

Lemma append_assoc (a b c : string) : (a ++ b) ++ c = a ++ (b ++ c).
Proof. induction a as [|x a IH]; simpl; [reflexivity | now rewrite IH]. Qed.

Lemma append_empty_r (a : string) : a ++ "" = a.
Proof. induction a as [|x a IH]; simpl; [reflexivity | now rewrite IH]. Qed.

Lemma length_append (a b : string) :
  String.length (a ++ b) = (String.length a + String.length b)%nat.
Proof. induction a as [|x a IH]; simpl; [reflexivity | now rewrite IH]. Qed.

Lemma split_lines_cons (s : string) :
  exists l ls, PyStr.split_lines s = l :: ls.
Proof.
  induction s as [|c s [l [ls IH]]]; simpl.
  - now exists "", [].
  - destruct (Ascii.eqb c PyStr.LF).
    + now exists "", (PyStr.split_lines s).
    + rewrite IH. now exists (String c l), ls.
Qed.

(** Joining the lines of a text gives the text back. *)
Lemma join_split_lines (s : string) : PyStr.join_lines (PyStr.split_lines s) = s.
Proof.
  unfold PyStr.join_lines.
  induction s as [|c s IH]; [reflexivity|].
  simpl. destruct (Ascii.eqb c PyStr.LF) eqn:E.
  - apply Ascii.eqb_eq in E. subst c.
    destruct (split_lines_cons s) as [l [ls H]].
    rewrite H in IH |- *.
    change (String.concat PyStr.nl ("" :: l :: ls))
      with (String PyStr.LF (String.concat PyStr.nl (l :: ls))).
    now rewrite IH.
  - destruct (split_lines_cons s) as [l [ls H]].
    rewrite H in IH |- *. rewrite <- IH.
    destruct ls; reflexivity.
Qed.

Lemma replace_nl_step (new : string) (c : ascii) (s : string) :
  PyStr.replace_from PyStr.nl new O (String c s)
  = if Ascii.eqb c PyStr.LF
    then new ++ PyStr.replace_from PyStr.nl new O s
    else String c (PyStr.replace_from PyStr.nl new O s).
Proof.
  unfold PyStr.nl. cbn [PyStr.replace_from prefix String.length Nat.pred].
  destruct (ascii_dec PyStr.LF c) as [<-|N].
  - rewrite Ascii.eqb_refl. now destruct s.
  - destruct (Ascii.eqb c PyStr.LF) eqn:E; [|reflexivity].
    apply Ascii.eqb_eq in E. congruence.
Qed.

(** Replacing every ["\n"] is joining the lines with the replacement. *)
Lemma replace_nl_concat (new s : string) :
  PyStr.replace PyStr.nl new s = String.concat new (PyStr.split_lines s).
Proof.
  unfold PyStr.replace.
  induction s as [|c s IH]; [reflexivity|].
  rewrite replace_nl_step. cbn [PyStr.split_lines].
  destruct (split_lines_cons s) as [l [ls H]].
  rewrite IH, H.
  destruct (Ascii.eqb c PyStr.LF); [reflexivity|].
  destruct ls; reflexivity.
Qed.

Lemma concat_prefixed (p : string) (l : string) (ls : list string) :
  p ++ String.concat (PyStr.nl ++ p) (l :: ls)
  = String.concat PyStr.nl (map (String.append p) (l :: ls)).
Proof.
  revert l. induction ls as [|x ls IH]; intro l; [reflexivity|].
  change (String.concat (PyStr.nl ++ p) (l :: x :: ls))
    with (l ++ (PyStr.nl ++ p) ++ String.concat (PyStr.nl ++ p) (x :: ls)).
  change (String.concat PyStr.nl (map (String.append p) (l :: x :: ls)))
    with ((p ++ l) ++ PyStr.nl
            ++ String.concat PyStr.nl (map (String.append p) (x :: ls))).
  rewrite <- IH. now rewrite !append_assoc.
Qed.

(** C10. [insert_indentation text indentation q] is the text in which
    every line has received the prefix [indentation * q]: its lines are the
    lines of [text], in the same number and order, each behind the
    prefix, joined again with ["\n"]. *)
Theorem insert_indentation_prefixes_every_line (text indentation : string) (q : Z) :
  insert_indentation text indentation q
  = PyStr.join_lines
      (map (String.append (PyStr.mul indentation q)) (PyStr.split_lines text)).
Proof.
  unfold insert_indentation, PyStr.join_lines.
  rewrite replace_nl_concat.
  destruct (split_lines_cons text) as [l [ls H]]. rewrite H.
  apply concat_prefixed.
Qed.

Lemma split_lines_prefix (p s : string) :
  PyStr.mem_char PyStr.LF p = false ->
  PyStr.split_lines (p ++ s)
  = match PyStr.split_lines s with
    | l :: ls => (p ++ l) :: ls
    | [] => [p]
    end.
Proof.
  induction p as [|c p IH]; intros H.
  - simpl. destruct (split_lines_cons s) as [l [ls E]]. now rewrite E.
  - cbn [PyStr.mem_char] in H. apply orb_false_elim in H. destruct H as [Hc Hp].
    cbn [String.append PyStr.split_lines]. rewrite Ascii.eqb_sym, Hc, (IH Hp).
    destruct (split_lines_cons s) as [l [ls E]]. now rewrite E.
Qed.

Lemma split_lines_no_nl (s : string) :
  Forall (fun l => PyStr.mem_char PyStr.LF l = false) (PyStr.split_lines s).
Proof.
  induction s as [|c s IH]; [repeat constructor|].
  cbn [PyStr.split_lines]. destruct (Ascii.eqb c PyStr.LF) eqn:E.
  - now constructor.
  - destruct (PyStr.split_lines s) as [|l ls]; [repeat constructor|].
    + cbn [PyStr.mem_char]. now rewrite Ascii.eqb_sym, E.
    + inversion IH; subst. constructor; [|assumption].
      cbn [PyStr.mem_char]. rewrite Ascii.eqb_sym, E. assumption.
Qed.

(** Splitting what was joined gives the lines back, when no line holds a
    line break. *)
Lemma split_join_lines (l : string) (ls : list string) :
  Forall (fun x => PyStr.mem_char PyStr.LF x = false) (l :: ls) ->
  PyStr.split_lines (PyStr.join_lines (l :: ls)) = l :: ls.
Proof.
  unfold PyStr.join_lines. revert l.
  induction ls as [|x ls IH]; intros l H; inversion H as [|? ? Hl Hls]; subst.
  - cbn [String.concat]. rewrite <- (append_empty_r l) at 1.
    rewrite (split_lines_prefix l "" Hl). simpl. now rewrite append_empty_r.
  - change (String.concat PyStr.nl (l :: x :: ls))
      with (l ++ String PyStr.LF (String.concat PyStr.nl (x :: ls))).
    rewrite (split_lines_prefix l _ Hl).
    cbn [PyStr.split_lines]. rewrite Ascii.eqb_refl, (IH x Hls).
    now rewrite append_empty_r.
Qed.

(** With an indentation free of line breaks, the result has the lines of
    the text, one for one, each behind the prefix. *)
Lemma insert_indentation_lines (text indentation : string) (q : Z) :
  PyStr.mem_char PyStr.LF (PyStr.mul indentation q) = false ->
  PyStr.split_lines (insert_indentation text indentation q)
  = map (String.append (PyStr.mul indentation q)) (PyStr.split_lines text).
Proof.
  intros H. unfold insert_indentation. rewrite replace_nl_concat.
  pose proof (split_lines_no_nl text) as F.
  destruct (split_lines_cons text) as [l [ls E]]. rewrite E in F |- *.
  rewrite concat_prefixed. apply split_join_lines.
  change (Forall (fun x => PyStr.mem_char PyStr.LF x = false)
                 (map (String.append (PyStr.mul indentation q)) (l :: ls))).
  apply Forall_forall. intros x Hx. apply in_map_iff in Hx.
  destruct Hx as [y [<- Hy]]. rewrite Forall_forall in F. specialize (F y Hy).
  clear - H F. induction (PyStr.mul indentation q) as [|c p IH]; [exact F|].
  cbn [PyStr.mem_char String.append] in *. apply orb_false_elim in H.
  destruct H as [Hc Hp]. rewrite Hc. now apply IH.
Qed.

End Strings.

(* ================================================================== *)
(** ** Depth validation *)

Section Depth.

(** The chained comparison cannot hold: no integer is below 1 and above 99. *)
Lemma depth_guard_false (d : Z) : ((1 >? d) && (d >? 99))%bool = false.
Proof.
  destruct (1 >? d) eqn:A; [|reflexivity].
  destruct (d >? 99) eqn:B; [|reflexivity].
  rewrite Z.gtb_lt in A. rewrite Z.gtb_lt in B. lia.
Qed.

Lemma validate_depth_eq (d : Z) : validate_depth d = (Z.max (Z.min d 99) 1, []).
Proof. unfold validate_depth. now rewrite depth_guard_false. Qed.

(** The warning of line 324 is never logged. *)
Lemma depth_never_warned (d : Z) : depth_warned d = false.
Proof. unfold depth_warned. now rewrite validate_depth_eq. Qed.

(** Inside the range the argument is kept. *)
Lemma depth_inside_kept (d : Z) :
  1 <= d <= 99 -> effective_depth d = d /\ depth_warned d = false.
Proof.
  intros H. split; [|apply depth_never_warned].
  unfold effective_depth. rewrite validate_depth_eq. simpl. lia.
Qed.

(** Below the range the depth becomes 1, above the range it becomes 99. *)
Lemma depth_outside (d : Z) :
  (d < 1 -> effective_depth d = 1) /\ (99 < d -> effective_depth d = 99).
Proof.
  unfold effective_depth. rewrite validate_depth_eq. simpl. lia.
Qed.

(** C2, at the depth argument 150: the program keeps 99, not 1, and logs
    no warning. *)
Theorem depth_150_becomes_99_unwarned :
  effective_depth 150 = 99 /\ depth_warned 150 = false
  /\ snd (validate_depth 150) = [].
Proof. repeat split. Qed.

(** C8. After validation the depth lies between 1 and 99, whatever integer
    was given. *)
Theorem effective_depth_in_range (d : Z) : 1 <= effective_depth d <= 99.
Proof.
  unfold effective_depth. rewrite validate_depth_eq. simpl. lia.
Qed.

End Depth.

(* ================================================================== *)
(** ** Repository queries *)

Ltac inv H := inversion H; subst; clear H.

Section Queries.

Lemma no_remotes_length (repo : Git.Repo) :
  (Z.of_nat (List.length (Git.remotes repo)) =? 0) = true <-> Git.remotes repo = [].
Proof.
  rewrite Z.eqb_eq. destruct (Git.remotes repo); simpl; split; intro H;
    try reflexivity; try discriminate; lia.
Qed.

Lemma remote_ok_remotes (repo : Git.Repo) (r : Git.Remote) :
  Git.remote repo = Ok r ->
  (Z.of_nat (List.length (Git.remotes repo)) =? 0) = false.
Proof.
  unfold Git.remote. destruct (Git.remotes repo); simpl; [discriminate|].
  now intros _.
Qed.


(** Whatever [get_repo_status] returns is a string. *)
Lemma get_repo_status_str (repo : Git.Repo) (v : pyval) :
  get_repo_status repo = Ok v -> is_str v = true.
Proof.
  unfold get_repo_status, get_repo_commit_diff.
  destruct (Git.active_branch repo) as [b|e]; cbn [bind]; [|discriminate].
  destruct (Z.of_nat (List.length (Git.remotes repo)) =? 0) eqn:L.
  - cbn [bind]. simpl. intros H. now inv H.
  - destruct (Git.remote repo) as [r|e]; cbn [bind]; [|discriminate].
    destruct (Git.refs_getitem r (Git.head_name b)) as [rb|e];
      cbn [bind]; [|discriminate].
    destruct (negb _); intros H; now inv H.
Qed.

(** Without remotes [get_repo_status] returns the empty string (or raises,
    on a detached [HEAD]). *)
Lemma get_repo_status_no_remotes (repo : Git.Repo) :
  Git.remotes repo = [] ->
  get_repo_status repo
  = match Git.active_branch repo with
    | Ok _ => Ok (PyStr "")
    | Raise e => Raise e
    end.
Proof.
  intros Hr. unfold get_repo_status, get_repo_commit_diff.
  destruct (Git.active_branch repo) as [b|e]; cbn [bind]; [|reflexivity].
  now rewrite (proj2 (no_remotes_length repo) Hr).
Qed.

(** When [is_repo_dirty] returns the integer 0. *)
Lemma is_repo_dirty_zero (repo : Git.Repo) :
  is_repo_dirty repo = Ok (PyInt 0)
  <-> (Git.is_dirty_default repo = Ok false
       /\ (exists b, Git.active_branch repo = Ok b)
       /\ Git.remotes repo = []).
Proof.
  unfold is_repo_dirty. split.
  - destruct (Git.is_dirty_default repo) as [[|]|e]; cbn [bind negb];
      try discriminate.
    destruct (Git.active_branch repo) as [b|e]; cbn [bind]; [|discriminate].
    destruct (Z.of_nat (List.length (Git.remotes repo)) =? 0) eqn:L.
    + intros _. repeat split; [now exists b | now apply no_remotes_length].
    + destruct (Git.remote repo) as [r|e]; cbn [bind]; [|discriminate].
      destruct (Git.refs_getitem r (Git.head_name b)); cbn [bind]; discriminate.
  - intros [Hd [[b Hb] Hr]]. rewrite Hd, Hb. cbn [bind negb].
    now rewrite (proj2 (no_remotes_length repo) Hr).
Qed.

(** C6, at a clean repository without remotes: [get_repo_status] returns
    the empty string, not the integer 0. *)
Lemma get_repo_status_no_remote_returns_str :
  Git.remotes Sample.clean_local = []
  /\ get_repo_status Sample.clean_local = Ok (PyStr "")
  /\ get_repo_status Sample.clean_local <> Ok (PyInt 0).
Proof. repeat split. discriminate. Qed.

(** C6, as the code has it.  Of the two functions that hold a [return 0]
    under the no-remote test, only [is_repo_dirty] can execute it: it
    returns the integer 0 exactly when [repo.is_dirty()] is false, the
    active branch resolves and there is no remote, and such a repository
    exists.  [get_repo_status] never returns an integer: whatever it
    returns is a string, and without remotes that string is empty. *)
Theorem int_zero_only_from_is_repo_dirty :
  (forall repo v, get_repo_status repo = Ok v -> is_str v = true)
  /\ (forall repo v, Git.remotes repo = [] ->
                     get_repo_status repo = Ok v -> v = PyStr "")
  /\ (forall repo,
        is_repo_dirty repo = Ok (PyInt 0)
        <-> (Git.is_dirty_default repo = Ok false
             /\ (exists b, Git.active_branch repo = Ok b)
             /\ Git.remotes repo = []))
  /\ (exists repo, Git.remotes repo = [] /\ is_repo_dirty repo = Ok (PyInt 0)).
Proof.
  split; [exact get_repo_status_str|].
  split.
  - intros repo v Hr. rewrite (get_repo_status_no_remotes repo Hr).
    destruct (Git.active_branch repo); intros H; now inv H.
  - split; [exact is_repo_dirty_zero|].
    exists Sample.clean_local. now split.
Qed.

Lemma int_zero_only_from_is_repo_dirty_witness :
  is_str (PyStr "") = true
  /\ is_repo_dirty Sample.clean_local = Ok (PyInt 0).
Proof.
  split.
  - apply (proj1 int_zero_only_from_is_repo_dirty Sample.clean_local (PyStr "")).
    reflexivity.
  - apply (proj1 (proj2 (proj2 int_zero_only_from_is_repo_dirty)) Sample.clean_local).
    repeat split. now exists (Git.mkHead "main" "a1").
Defined.

End Queries.

(* ================================================================== *)
(** ** Ahead and behind *)

Section AheadBehind.

Lemma mem_In (h : string) (l : list string) : Git.mem h l = true <-> In h l.
Proof.
  unfold Git.mem. rewrite existsb_exists. split.
  - intros [x [Hx E]]. apply String.eqb_eq in E. now subst.
  - intros H. exists h. split; [assumption | apply String.eqb_refl].
Qed.

Lemma distinct_NoDup (l : list string) : Git.distinct l = true -> NoDup l.
Proof.
  induction l as [|h t IH]; simpl; intros H; constructor.
  - apply andb_prop in H. destruct H as [H _].
    intros Hin. apply mem_In in Hin. now rewrite Hin in H.
  - apply IH. now apply andb_prop in H.
Qed.

Lemma filter_length_split {A : Type} (f : A -> bool) (l : list A) :
  List.length l
  = (List.length (filter f l) + List.length (filter (fun x => negb (f x)) l))%nat.
Proof.
  induction l as [|x l IH]; simpl; [reflexivity|].
  destruct (f x); simpl; lia.
Qed.

(** Two duplicate-free lists have as many elements in common, counted in
    either of them. *)
Lemma common_length (l r : list string) :
  NoDup l -> NoDup r ->
  List.length (filter (fun h => Git.mem h r) l)
  = List.length (filter (fun h => Git.mem h l) r).
Proof.
  intros Hl Hr.
  assert (A : forall a b : list string, NoDup a ->
              (List.length (filter (fun h => Git.mem h b) a)
               <= List.length (filter (fun h => Git.mem h a) b))%nat).
  { intros a b Ha. apply NoDup_incl_length.
    - now apply NoDup_filter.
    - intros x Hx. apply filter_In in Hx. destruct Hx as [Hx Hm].
      apply filter_In. split; [now apply mem_In | now apply mem_In]. }
  apply Nat.le_antisymm; now apply A.
Qed.

(** The difference of the two commit counts is ahead minus behind. *)
Lemma count_difference (repo : Git.Repo) (a b : string) :
  Git.history_ok repo a -> Git.history_ok repo b ->
  Git.count repo a - Git.count repo b = Git.ahead repo a b - Git.behind repo a b.
Proof.
  intros Ha Hb. apply distinct_NoDup in Ha. apply distinct_NoDup in Hb.
  unfold Git.count, Git.behind, Git.ahead, Git.only_in.
  rewrite (filter_length_split (fun h => Git.mem h (Git.rev_list repo b))
                               (Git.rev_list repo a)).
  rewrite (filter_length_split (fun h => Git.mem h (Git.rev_list repo a))
                               (Git.rev_list repo b)).
  rewrite (common_length _ _ Ha Hb). lia.
Qed.

(** C4, at two diverged repositories.  On [main] three commits ahead of
    [origin/main] and one behind it, [get_repo_commit_diff] returns 2,
    neither +3 nor -1, and the status reads [ahead ... by 2 commits].  On
    [main] one commit ahead and one behind, it returns 0 and the status is
    empty, while [is_repo_dirty] finds the same repository stale. *)
Theorem diverged_branch_commit_diff :
  Git.active_branch Sample.diverged = Ok (Git.mkHead "main" "a3")
  /\ Git.ahead Sample.diverged "a3" "r1" = 3
  /\ Git.behind Sample.diverged "a3" "r1" = 1
  /\ get_repo_commit_diff Sample.diverged = Ok 2
  /\ get_repo_commit_diff Sample.diverged <> Ok 3
  /\ get_repo_commit_diff Sample.diverged <> Ok (-1)
  /\ get_repo_status Sample.diverged
     = Ok (PyStr "'main' is ahead 'origin/main' by 2 commits.")
  /\ Git.ahead Cases.diverged_even "a1" "r1" = 1
  /\ Git.behind Cases.diverged_even "a1" "r1" = 1
  /\ get_repo_commit_diff Cases.diverged_even = Ok 0
  /\ get_repo_status Cases.diverged_even = Ok (PyStr "")
  /\ is_repo_dirty Cases.diverged_even = Ok (PyBool true).
Proof. repeat split; discriminate. Qed.

(** X24. For a repository whose active branch resolves and has a reference
    of the same name on the remote [origin], [get_repo_commit_diff]
    returns the number of commits ahead minus the number of commits
    behind: [+N] for a branch that is [N] ahead and not behind, [-N] for
    a branch that is [N] behind and not ahead. *)
Theorem commit_diff_ahead_minus_behind
    (repo : Git.Repo) (b : Git.Head) (rem : Git.Remote) (rb : Git.RemoteRef) (N : Z) :
  Git.active_branch repo = Ok b ->
  Git.remote repo = Ok rem ->
  Git.refs_getitem rem (Git.head_name b) = Ok rb ->
  Git.history_ok repo (Git.head_commit b) ->
  Git.history_ok repo (Git.ref_commit rb) ->
  let ahead := Git.ahead repo (Git.head_commit b) (Git.ref_commit rb) in
  let behind := Git.behind repo (Git.head_commit b) (Git.ref_commit rb) in
  get_repo_commit_diff repo = Ok (ahead - behind)
  /\ (ahead = N -> behind = 0 -> get_repo_commit_diff repo = Ok N)
  /\ (behind = N -> ahead = 0 -> get_repo_commit_diff repo = Ok (- N)).
Proof.
  intros Hb Hrem Href Hl Hr ahead behind.
  assert (E : get_repo_commit_diff repo = Ok (ahead - behind)).
  { unfold get_repo_commit_diff. rewrite Hb. cbn [bind].
    rewrite (remote_ok_remotes repo rem Hrem), Hrem. cbn [bind].
    rewrite Href. cbn [bind]. f_equal. now apply count_difference. }
  split; [exact E|]. split; intros H1 H2; rewrite E; f_equal; lia.
Qed.

Lemma commit_diff_ahead_minus_behind_witness :
  get_repo_commit_diff Sample.ahead_two = Ok 2
  /\ get_repo_commit_diff Sample.behind_two = Ok (- (2)).
Proof.
  split.
  - apply (commit_diff_ahead_minus_behind Sample.ahead_two
             (Git.mkHead "main" "a2") (Sample.origin_at "c0")
             (Git.mkRef "origin/main" "c0") 2); reflexivity.
  - apply (commit_diff_ahead_minus_behind Sample.behind_two
             (Git.mkHead "main" "c0") (Sample.origin_at "a2")
             (Git.mkRef "origin/main" "a2") 2); reflexivity.
Defined.

End AheadBehind.

(* ================================================================== *)
(** ** [check_directory] *)

Section CheckDirectory.

Variable world : World.

Lemma check_directory_directory (d : string) :
  directory (fst (check_directory world d)) = d.
Proof.
  unfold check_directory, check_try.
  destruct (world d) as [repo|e]; cbn [bind].
  - destruct (get_repo_modified_files repo); cbn [bind];
      [|destruct (exn_cls e); reflexivity].
    destruct (get_repo_untracked_files repo); cbn [bind];
      [|destruct (exn_cls e); reflexivity].
    destruct (is_repo_dirty repo); cbn [bind];
      [reflexivity | destruct (exn_cls e); reflexivity].
  - destruct (exn_cls e); reflexivity.
Qed.

(** A check that succeeds returns the result of its [try] body. *)
Lemma check_directory_ok (d : string) (r : StaleResult) (l : list log_record) :
  check_try world d = Ok (r, l) -> fst (check_directory world d) = r.
Proof. unfold check_directory. now intros ->. Qed.

(** A check that fails returns [StaleResult(directory, False)]. *)
Lemma check_directory_raise (d : string) (e : exn) :
  check_try world d = Raise e -> fst (check_directory world d) = not_stale d.
Proof. unfold check_directory. intros ->. now destruct (exn_cls e). Qed.

(** A stale result comes from a check that did not fail. *)
Lemma stale_check_ok (d : string) :
  truthy (stale (fst (check_directory world d))) = true ->
  exists x, check_try world d = Ok x.
Proof.
  destruct (check_try world d) as [x|e] eqn:E; [now exists x|].
  now rewrite (check_directory_raise d e E).
Qed.

(** The results of the loop are the checks of the paths it visits. *)
Lemma walk_loop_results (triples : list (string * list string)) :
  forall (wd md : Z) (results : list StaleResult) (logs : list log_record),
    fst (walk_loop world triples wd md results logs)
    = (results ++ map (fun p => fst (check_directory world p))
                      (loop_paths triples wd md))%list.
Proof.
  induction triples as [|[subdir dirs] rest IH]; intros wd md results logs.
  - simpl. now rewrite app_nil_r.
  - cbn [walk_loop loop_paths].
    destruct (wd + 1 >=? md).
    + cbn [fst]. rewrite app_nil_r, !map_map. reflexivity.
    + rewrite IH, map_app, app_assoc, !map_map. reflexivity.
Qed.

Lemma scan_results (tree : Tree) (root_directory : string) (md : Z) :
  scan world tree root_directory md
  = map (fun p => fst (check_directory world p))
        (loop_paths (walk root_directory tree) 0 md).
Proof. unfold scan. now rewrite walk_loop_results. Qed.

(** Which directories are checked does not depend on what the checks find. *)
Lemma scan_directories (tree : Tree) (root_directory : string) (md : Z) :
  map directory (scan world tree root_directory md)
  = loop_paths (walk root_directory tree) 0 md.
Proof.
  rewrite scan_results, map_map.
  rewrite (map_ext _ (fun p => p)); [apply map_id|].
  intros p. apply check_directory_directory.
Qed.

(** The stable insertion sort keeps the elements of the list. *)
Lemma insert_result_perm (r : StaleResult) (l : list StaleResult) :
  Permutation (r :: l) (insert_result r l).
Proof.
  induction l as [|x l IH]; simpl; [reflexivity|].
  destruct (String.leb (directory r) (directory x)); [reflexivity|].
  rewrite perm_swap. now apply perm_skip.
Qed.

Lemma sort_results_perm (l : list StaleResult) : Permutation l (sort_results l).
Proof.
  induction l as [|r l IH]; simpl; [reflexivity|].
  rewrite <- insert_result_perm. now apply perm_skip.
Qed.

(** What reaches the printing loop was found stale by the walk. *)
Lemma reported_In (tree : Tree) (args : Args) (r : StaleResult) :
  In r (reported world tree args)
  <-> In r (scan world tree (root args) (depth args)) /\ truthy (stale r) = true.
Proof.
  unfold reported. split; intro H.
  - apply (Permutation_in _ (Permutation_sym (sort_results_perm _))) in H.
    now apply filter_In in H.
  - apply (Permutation_in _ (sort_results_perm _)).
    now apply filter_In.
Qed.

Lemma scan_In (tree : Tree) (root_directory : string) (md : Z) (r : StaleResult) :
  In r (scan world tree root_directory md) ->
  r = fst (check_directory world (directory r))
  /\ In (directory r) (loop_paths (walk root_directory tree) 0 md).
Proof.
  rewrite scan_results. intros H. apply in_map_iff in H.
  destruct H as [p [<- Hp]]. rewrite check_directory_directory. now split.
Qed.

(** (a) A modified tracked file makes the directory stale, and the file
    is listed. *)
Lemma modified_file_stale (d : string) (repo : Git.Repo) (f : string)
    (s m u : list string) :
  world d = Ok repo ->
  Git.bare repo = false ->
  Git.staged repo = Ok s ->
  Git.unstaged repo = Ok m ->
  Git.untracked_files repo = Ok u ->
  In f m ->
  stale (fst (check_directory world d)) = PyBool true
  /\ In f (modified (files (fst (check_directory world d)))).
Proof.
  intros Hw Hb Hs Hm Hu Hf.
  assert (E : is_repo_dirty repo = Ok (PyBool true)).
  { unfold is_repo_dirty, Git.is_dirty_default, Git.is_dirty.
    rewrite Hb, Hs, Hm. cbn [bind].
    destruct s; cbn [Git.nonempty bind negb]; [|reflexivity].
    destruct m; [contradiction | reflexivity]. }
  unfold check_directory, check_try, get_repo_modified_files,
    get_repo_untracked_files.
  rewrite Hw. cbn [bind]. rewrite Hm, Hu. cbn [bind]. rewrite E.
  cbn. now split.
Qed.

(** (c) A non-zero commit difference makes the directory stale. *)
Lemma divergence_stale (d : string) (repo : Git.Repo) (n : Z) (m u : list string)
    (dirty : bool) :
  world d = Ok repo ->
  Git.unstaged repo = Ok m ->
  Git.untracked_files repo = Ok u ->
  Git.is_dirty_default repo = Ok dirty ->
  get_repo_commit_diff repo = Ok n ->
  n <> 0 ->
  stale (fst (check_directory world d)) = PyBool true.
Proof.
  intros Hw Hm Hu Hd Hn Hz.
  assert (E : is_repo_dirty repo = Ok (PyBool true)).
  { unfold is_repo_dirty. rewrite Hd. cbn [bind].
    destruct dirty; [reflexivity|]. cbn [negb].
    revert Hn. unfold get_repo_commit_diff.
    destruct (Git.active_branch repo) as [b|]; cbn [bind]; [|discriminate].
    destruct (Z.of_nat (List.length (Git.remotes repo)) =? 0).
    - intros H. inv H. contradiction.
    - destruct (Git.remote repo) as [r|]; cbn [bind]; [|discriminate].
      destruct (Git.refs_getitem r (Git.head_name b)) as [rb|];
        cbn [bind]; [|discriminate].
      intros H. inv H.
      destruct (String.eqb (Git.head_commit b) (Git.ref_commit rb)) eqn:Q;
        [|reflexivity].
      apply String.eqb_eq in Q. rewrite Q in Hz. lia. }
  unfold check_directory, check_try, get_repo_modified_files,
    get_repo_untracked_files.
  rewrite Hw. cbn [bind]. rewrite Hm, Hu. cbn [bind]. rewrite E.
  reflexivity.
Qed.

End CheckDirectory.

(** C5. When opening the directory or any query on it raises, whatever the
    exception, [check_directory] returns a result that is not stale and
    lists no file, and logs at the levels debug and error only.  The walk
    goes on: the directories it checks are the same whatever the checks
    find, and the failed directory does not reach the printing loop, the
    only place from which an exception can leave [main]. *)
Theorem failed_check_is_not_stale (world : World) (d : string) (e : exn) :
  check_try world d = Raise e ->
  let result := fst (check_directory world d) in
  directory result = d
  /\ stale result = PyBool false
  /\ modified (files result) = []
  /\ untracked (files result) = []
  /\ Forall (fun l => log_level l = DEBUG \/ log_level l = ERROR)
            (snd (check_directory world d))
  /\ (forall tree root_directory max_depth,
        map directory (scan world tree root_directory max_depth)
        = checked_dirs tree root_directory max_depth)
  /\ (forall tree args, ~ In d (map directory (reported world tree args))).
Proof.
  intros E result. subst result.
  rewrite (check_directory_raise world d e E).
  split; [reflexivity|]. split; [reflexivity|].
  split; [reflexivity|]. split; [reflexivity|].
  split; [|split].
  - unfold check_directory. rewrite E.
    destruct (exn_cls e); simpl;
      repeat (apply Forall_cons; [simpl; auto|]); apply Forall_nil.
  - intros tree root_directory max_depth. unfold checked_dirs.
    now rewrite !scan_directories.
  - intros tree args H. apply in_map_iff in H. destruct H as [r [Hd Hr]].
    apply reported_In in Hr. destruct Hr as [Hs Ht].
    apply scan_In in Hs. destruct Hs as [Hr _].
    rewrite Hr, Hd, (check_directory_raise world d e E) in Ht. discriminate.
Qed.

Lemma failed_check_is_not_stale_witness :
  stale (fst (check_directory (Sample.world_of []) "root/a")) = PyBool false
  /\ stale (fst (check_directory Sample.unreadable "root/a")) = PyBool false.
Proof.
  split.
  - apply (failed_check_is_not_stale (Sample.world_of []) "root/a"
             (mkExn InvalidGitRepositoryError "root/a")).
    reflexivity.
  - apply (failed_check_is_not_stale Sample.unreadable "root/a"
             (mkExn PermissionError "[Errno 13] Permission denied")).
    reflexivity.
Defined.

(** C1, at a repository whose only change is one untracked file: the file
    is in the untracked list, yet the result is not stale ([False] next to
    a level remote, the integer 0 without remote) and nothing is printed
    for the directory. *)
Theorem untracked_file_is_not_stale :
  let synced := Sample.world_of [("root/a", Sample.untracked_synced)] in
  let local := Sample.world_of [("root/a", Sample.untracked_local)] in
  In "notes.txt" (untracked (files (fst (check_directory synced "root/a"))))
  /\ stale (fst (check_directory synced "root/a")) = PyBool false
  /\ In "notes.txt" (untracked (files (fst (check_directory local "root/a"))))
  /\ stale (fst (check_directory local "root/a")) = PyInt 0
  /\ printed (main (Sample.plain_args "root" 1) synced Sample.one_dir) = []
  /\ printed (main (Sample.plain_args "root" 1) local Sample.one_dir) = [].
Proof. cbv. repeat split; auto. Qed.

(* ================================================================== *)
(** ** The walk *)

Section Walk.

(** The sub-directories listed by a triple of [os.walk], as full paths. *)
Let children (tr : string * list string) : list string :=
  map (path_join (fst tr)) (snd tr).

(** How many triples the loop takes at most before its [break]. *)
Let turns (wd md : Z) : nat := Z.to_nat (Z.max 1 (md - wd)).

(** The loop checks the sub-directories of the first [max 1 max_depth]
    directories that [os.walk] yields. *)
Lemma loop_paths_firstn (triples : list (string * list string)) :
  forall wd md : Z,
    loop_paths triples wd md = flat_map children (firstn (turns wd md) triples).
Proof.
  induction triples as [|[subdir dirs] rest IH]; intros wd md.
  - now rewrite firstn_nil.
  - cbn [loop_paths]. unfold turns.
    destruct (wd + 1 >=? md) eqn:G.
    + replace (Z.to_nat (Z.max 1 (md - wd))) with 1%nat by lia.
      simpl. reflexivity.
    + replace (Z.to_nat (Z.max 1 (md - wd)))
        with (S (Z.to_nat (Z.max 1 (md - (wd + 1))))) by lia.
      cbn [firstn flat_map]. now rewrite IH.
Qed.

Lemma firstn_incl {A : Type} (n : nat) (l : list A) : incl (firstn n l) l.
Proof.
  intros x Hx. rewrite <- (firstn_skipn n l). apply in_or_app. now left.
Qed.

Lemma firstn_flat_map_incl {A B : Type} (f : A -> list B) (n : nat) (l : list A) :
  incl (firstn n (flat_map f l)) (flat_map (fun a => firstn n (f a)) l).
Proof.
  revert n. induction l as [|a l IH]; intros n x Hx.
  - simpl in Hx. now rewrite firstn_nil in Hx.
  - cbn [flat_map] in *. rewrite firstn_app in Hx.
    apply in_app_or in Hx. apply in_or_app. destruct Hx as [Hx|Hx].
    + now left.
    + right. apply IH.
      assert (S : incl (firstn (n - List.length (f a)) (flat_map f l))
                       (firstn n (flat_map f l))).
      { clear. generalize (flat_map f l). intros m.
        replace n with ((n - List.length (f a))
                        + (n - (n - List.length (f a))))%nat at 2 by lia.
        generalize (n - List.length (f a))%nat
                   (n - (n - List.length (f a)))%nat.
        intros i j. revert m. induction i as [|i IHi]; intros m y Hy.
        - simpl in Hy. contradiction.
        - destruct m as [|z m]; [simpl in Hy; contradiction|].
          simpl in Hy |- *. destruct Hy as [Hy|Hy]; [now left|].
          right. now apply IHi. }
      now apply S.
Qed.

(** The sub-directories of the first [n] directories of the walk lie
    within [n] levels below the top. *)
Lemma firstn_walk_within (n : nat) :
  forall (top : string) (t : Tree) (tr : string * list string) (p : string),
    In tr (firstn n (walk top t)) -> In p (children tr) ->
    In p (within_levels n top t).
Proof.
  induction n as [|n IH]; intros top t tr p Htr Hp; [contradiction|].
  destruct t as [|entries]; [contradiction|].
  cbn [walk firstn] in Htr. cbn [within_levels].
  destruct Htr as [<-|Htr].
  - unfold children in Hp. cbn [fst snd] in Hp.
    rewrite map_map in Hp. apply in_map_iff in Hp.
    destruct Hp as [e [<- He]].
    apply in_flat_map. exists e. split; [assumption | now left].
  - apply firstn_flat_map_incl in Htr. apply in_flat_map in Htr.
    destruct Htr as [e [He Htr]].
    apply in_flat_map. exists e. split; [assumption|].
    right. now apply (IH _ _ tr).
Qed.

(** Every directory the walk checks lies within the depth bound. *)
Lemma checked_within_bound (tree : Tree) (root_directory : string) (d : Z) :
  1 <= d ->
  incl (checked_dirs tree root_directory d)
       (within_levels (Z.to_nat d) root_directory tree).
Proof.
  intros Hd p Hp. unfold checked_dirs in Hp.
  rewrite scan_directories, loop_paths_firstn in Hp.
  apply in_flat_map in Hp. destruct Hp as [tr [Htr Hp]].
  apply (firstn_walk_within _ _ _ tr); [|assumption].
  unfold turns in Htr. now replace (Z.max 1 (d - 0)) with d in Htr by lia.
Qed.

(** At depth 1 the walk checks exactly the entries of the root. *)
Lemma checked_depth_one (tree : Tree) (root_directory : string) :
  checked_dirs tree root_directory 1 = within_levels 1 root_directory tree.
Proof.
  unfold checked_dirs. rewrite scan_directories, loop_paths_firstn.
  destruct tree as [|entries]; [reflexivity|].
  unfold turns. simpl. unfold children. cbn [fst snd].
  rewrite app_nil_r, map_map.
  induction entries as [|e es IH]; simpl; [reflexivity | now rewrite IH].
Qed.

(** C3, at a root with the two branches [a/a1] and [b/b1] and depth 2:
    the walk checks [a], [b] and [a/a1] and stops; [b/b1], two levels below
    the root, is never checked. *)
Theorem depth_two_skips_second_branch :
  within_levels 2 "root" Sample.two_branches
  = ["root/a"; "root/a/a1"; "root/b"; "root/b/b1"]
  /\ checked_dirs Sample.two_branches "root" 2 = ["root/a"; "root/b"; "root/a/a1"]
  /\ In "root/b/b1" (within_levels 2 "root" Sample.two_branches)
  /\ ~ In "root/b/b1" (checked_dirs Sample.two_branches "root" 2).
Proof.
  repeat split.
  - simpl. tauto.
  - cbv. intuition discriminate.
Qed.

Lemma name_ok_no_sep (n : string) : name_ok n = true -> starts_with_sep n = false.
Proof.
  unfold name_ok. intros H. apply andb_prop in H. destruct H as [_ H].
  destruct n as [|c n]; [reflexivity|].
  unfold starts_with_sep. cbn [PyStr.mem_char] in H.
  destruct (Ascii.eqb c SEP) eqn:E; [|reflexivity].
  apply Ascii.eqb_eq in E. subst c. rewrite Ascii.eqb_refl in H. discriminate.
Qed.

(** Joining a directory name to a path gives a longer path. *)
Lemma path_join_longer (a n : string) :
  name_ok n = true -> (String.length a < String.length (path_join a n))%nat.
Proof.
  intros H. unfold path_join. rewrite (name_ok_no_sep n H).
  assert (L : (0 < String.length n)%nat).
  { unfold name_ok in H. destruct n; [discriminate | simpl; lia]. }
  destruct (_ || _)%bool; rewrite length_append; simpl; lia.
Qed.

Lemma walk_paths_longer (t : Tree) :
  forall top : string,
    names_ok t = true ->
    Forall (fun tr => (String.length top <= String.length (fst tr))%nat
                      /\ forallb name_ok (snd tr) = true)
           (walk top t).
Proof.
  induction t as [|entries IH] using Tree_nested_ind; intros top Hok;
    [constructor|].
  cbn [walk]. cbn [names_ok] in Hok. constructor.
  - cbn [fst snd]. split; [lia|].
    rewrite forallb_forall in Hok |- *. intros n Hn.
    apply in_map_iff in Hn. destruct Hn as [e [<- He]].
    specialize (Hok e He). now apply andb_prop in Hok.
  - apply Forall_flat_map. rewrite Forall_forall in IH |- *.
    intros e He. rewrite forallb_forall in Hok.
    specialize (Hok e He). apply andb_prop in Hok. destruct Hok as [Hn Hs].
    specialize (IH e He (path_join top (fst e)) Hs).
    eapply Forall_impl; [|exact IH].
    intros tr [Hl Hd]. split; [|assumption].
    pose proof (path_join_longer top (fst e) Hn). lia.
Qed.

(** Every checked path is longer than the root path. *)
Lemma loop_paths_longer (tree : Tree) (root_directory : string) (wd md : Z) :
  names_ok tree = true ->
  Forall (fun p => (String.length root_directory < String.length p)%nat)
         (loop_paths (walk root_directory tree) wd md).
Proof.
  intros Hok. rewrite loop_paths_firstn. apply Forall_flat_map.
  apply Forall_forall. intros tr Htr. apply firstn_incl in Htr.
  pose proof (walk_paths_longer tree root_directory Hok) as W.
  rewrite Forall_forall in W. destruct (W tr Htr) as [Hl Hd].
  unfold children. apply Forall_forall. intros p Hp.
  apply in_map_iff in Hp. destruct Hp as [n [<- Hn]].
  rewrite forallb_forall in Hd.
  pose proof (path_join_longer (fst tr) n (Hd n Hn)). lia.
Qed.

End Walk.

(* ================================================================== *)
(** ** Order on paths and the sort *)

Section Sorting.

Lemma ascii_compare_lt_trans (x y z : ascii) :
  Ascii.compare x y = Lt -> Ascii.compare y z = Lt -> Ascii.compare x z = Lt.
Proof.
  unfold Ascii.compare. rewrite !N.compare_lt_iff. lia.
Qed.

Lemma string_compare_le_trans (a : string) :
  forall b c : string,
    String.compare a b <> Gt -> String.compare b c <> Gt -> String.compare a c <> Gt.
Proof.
  induction a as [|x a IH]; intros [|y b] [|z c]; simpl; try congruence.
  destruct (Ascii.compare x y) eqn:XY; destruct (Ascii.compare y z) eqn:YZ;
    try congruence.
  - apply Ascii.compare_eq_iff in XY. apply Ascii.compare_eq_iff in YZ.
    subst. replace (Ascii.compare z z) with Eq; [apply IH|].
    symmetry. unfold Ascii.compare. apply N.compare_refl.
  - apply Ascii.compare_eq_iff in XY. subst. rewrite YZ. congruence.
  - apply Ascii.compare_eq_iff in YZ. subst. rewrite XY. congruence.
  - rewrite (ascii_compare_lt_trans x y z XY YZ). congruence.
Qed.

Lemma leb_not_gt (a b : string) : String.leb a b = true <-> String.compare a b <> Gt.
Proof.
  unfold String.leb. destruct (String.compare a b); split; congruence.
Qed.

(** The order of Python strings is transitive. *)
Lemma le_trans (a b c : string) : PyStr.le a b -> PyStr.le b c -> PyStr.le a c.
Proof.
  unfold PyStr.le. rewrite !leb_not_gt. apply string_compare_le_trans.
Qed.

Lemma insert_result_sorted (r : StaleResult) (l : list StaleResult) :
  StronglySorted by_directory l -> StronglySorted by_directory (insert_result r l).
Proof.
  induction l as [|x l IH]; intros H; simpl.
  - repeat constructor.
  - inversion H as [|? ? Hs Hf]; subst.
    destruct (String.leb (directory r) (directory x)) eqn:E.
    + constructor; [assumption|]. constructor; [exact E|].
      eapply Forall_impl; [|exact Hf]. intros y Hy.
      exact (le_trans _ _ _ E Hy).
    + constructor; [now apply IH|].
      assert (X : by_directory x r).
      { destruct (String.leb_total (directory r) (directory x)) as [T|T];
          [congruence | exact T]. }
      eapply Permutation_Forall; [apply insert_result_perm|].
      now constructor.
Qed.

(** The reported results are ordered by directory. *)
Lemma sort_results_sorted (l : list StaleResult) :
  StronglySorted by_directory (sort_results l).
Proof.
  induction l as [|r l IH]; simpl; [constructor | now apply insert_result_sorted].
Qed.

End Sorting.

(* ================================================================== *)
(** ** [main] and the printed output *)

Section Printing.

Variable args : Args.
Variable world : World.

(** A block that is printed in full starts with the line of
    [output_repo] and ends with the blank line of [output_blank]. *)
Lemma report_ok_shape (r : StaleResult) :
  snd (report args world r) = Ok tt ->
  exists (diff : Z) (body : list string),
    block args world r
    = (output_repo args r diff ++ body ++ output_blank args)%list.
Proof.
  unfold block, report.
  destruct (bind (world (directory r)) _) as [st|e]; [|discriminate].
  destruct (bind (world (directory r)) _) as [diff|e]; [|discriminate].
  destruct (output_status args st) as [lines|e]; [|discriminate].
  intros _. exists diff, (lines ++ output_files args (files r))%list.
  cbn [fst]. now rewrite <- !app_assoc.
Qed.

(** When the printing loop ends normally over stale results, it has
    printed the block of every one of them, in the order of the list. *)
Lemma print_loop_ok (rs : list StaleResult) :
  Forall (fun r => truthy (stale r) = true) rs ->
  snd (print_loop args world rs) = Ok tt ->
  fst (print_loop args world rs) = List.concat (map (block args world) rs)
  /\ Forall (fun r => snd (report args world r) = Ok tt) rs.
Proof.
  induction rs as [|r rs IH]; intros Hs Hok; [now split|].
  inversion Hs as [|? ? Hr Hrs]; subst.
  cbn [print_loop] in *. rewrite Hr in *. cbn [negb] in *.
  assert (B : block args world r = fst (report args world r)) by reflexivity.
  destruct (report args world r) as [out [[]|e]] eqn:R; [|discriminate].
  destruct (print_loop args world rs) as [out' o] eqn:L.
  cbn [fst snd] in *. destruct (IH Hrs Hok) as [E F].
  split; [|constructor; [now rewrite R | assumption]].
  cbn [map List.concat]. now rewrite B, E.
Qed.

(** An exception in the printing loop stops it: the results behind the one
    that raised print nothing. *)
Lemma print_loop_raise (r : StaleResult) (rs : list StaleResult) (e : exn) :
  truthy (stale r) = true ->
  snd (report args world r) = Raise e ->
  print_loop args world (r :: rs) = (block args world r, Raise e).
Proof.
  intros Hr He. cbn [print_loop]. rewrite Hr. cbn [negb]. unfold block.
  destruct (report args world r) as [out [u|e']]; cbn [snd fst] in *;
    [discriminate | congruence].
Qed.

Variable tree : Tree.

Lemma main_printed :
  printed (main args world tree) = fst (print_loop args world (reported world tree args))
  /\ outcome (main args world tree)
     = snd (print_loop args world (reported world tree args)).
Proof.
  unfold main, reported, scan.
  destruct (check_directory world (root args)) as [r0 l0].
  destruct (walk_loop world _ 0 (depth args) [] []) as [rs l2].
  cbn [fst]. destruct (print_loop args world _) as [out o]. now split.
Qed.

Lemma reported_stale :
  Forall (fun r => truthy (stale r) = true) (reported world tree args).
Proof.
  apply Forall_forall. intros r Hr. now apply reported_In in Hr.
Qed.

(** When [main] ends normally, the output is one block per stale result
    and nothing else, the blocks follow the order of the paths, and each
    block ends with the blank line. *)
Lemma printed_blocks :
  outcome (main args world tree) = Ok tt ->
  printed (main args world tree)
  = List.concat (map (block args world) (reported world tree args))
  /\ StronglySorted by_directory (reported world tree args)
  /\ Permutation (reported world tree args)
                 (filter (fun r => truthy (stale r))
                         (scan world tree (root args) (depth args)))
  /\ Forall (fun r => exists diff body,
                 block args world r
                 = (output_repo args r diff ++ body ++ output_blank args)%list)
            (reported world tree args).
Proof.
  destruct main_printed as [Hp Ho]. rewrite Hp, Ho. intros Hok.
  destruct (print_loop_ok _ reported_stale Hok) as [E F].
  split; [exact E|]. split; [apply sort_results_sorted|].
  split; [symmetry; apply sort_results_perm|].
  eapply Forall_impl; [|exact F]. intros r. apply report_ok_shape.
Qed.

End Printing.

(* ================================================================== *)
(** ** The root directory *)

Section Root.

Variable args : Args.
Variable tree : Tree.

(** A check reads the world at the checked path only. *)
Lemma check_directory_ext (w1 w2 : World) (p : string) :
  w1 p = w2 p -> check_directory w1 p = check_directory w2 p.
Proof. intros H. unfold check_directory, check_try. now rewrite H. Qed.

Lemma report_ext (w1 w2 : World) (r : StaleResult) :
  w1 (directory r) = w2 (directory r) -> report args w1 r = report args w2 r.
Proof. intros H. unfold report. now rewrite H. Qed.

Lemma print_loop_ext (w1 w2 : World) (rs : list StaleResult) :
  Forall (fun r => w1 (directory r) = w2 (directory r)) rs ->
  print_loop args w1 rs = print_loop args w2 rs.
Proof.
  induction 1 as [|r rs Hr _ IH]; [reflexivity|].
  cbn [print_loop]. now rewrite (report_ext w1 w2 r Hr), IH.
Qed.

(** Two worlds that differ at the root only give the same results. *)
Lemma reported_ext (w1 w2 : World) :
  names_ok tree = true ->
  (forall p, p <> root args -> w1 p = w2 p) ->
  reported w1 tree args = reported w2 tree args.
Proof.
  intros Hok H. unfold reported. rewrite !scan_results. do 2 f_equal.
  apply map_ext_in. intros p Hp. f_equal. apply check_directory_ext, H.
  pose proof (loop_paths_longer tree (root args) 0 (depth args) Hok) as L.
  rewrite Forall_forall in L. specialize (L p Hp). intros ->. lia.
Qed.

(** C9. The result of the check of the root directory is dropped: every
    result of the walk, and so every result that is printed, is for a
    path longer than the root path and so for another directory; the
    output comes from the reported results only, and it is the same
    whatever the repository at the root is. *)
Theorem root_is_never_reported (world : World) :
  names_ok tree = true ->
  ~ In (root args) (map directory (scan world tree (root args) (depth args)))
  /\ ~ In (root args) (map directory (reported world tree args))
  /\ printed (main args world tree)
     = fst (print_loop args world (reported world tree args))
  /\ (forall world' : World,
        (forall p, p <> root args -> world' p = world p) ->
        printed (main args world' tree) = printed (main args world tree)
        /\ outcome (main args world' tree) = outcome (main args world tree)).
Proof.
  intros Hok.
  assert (A : ~ In (root args)
                (map directory (scan world tree (root args) (depth args)))).
  { rewrite scan_directories. intros H.
    pose proof (loop_paths_longer tree (root args) 0 (depth args) Hok) as L.
    rewrite Forall_forall in L. specialize (L _ H). lia. }
  assert (B : ~ In (root args) (map directory (reported world tree args))).
  { intros H. apply A. apply in_map_iff in H. destruct H as [r [Hd Hr]].
    apply in_map_iff. exists r. split; [assumption|].
    now apply reported_In in Hr. }
  split; [exact A|]. split; [exact B|]. split; [apply main_printed|].
  intros world' H.
  destruct (main_printed args world tree) as [P1 O1].
  destruct (main_printed args world' tree) as [P2 O2].
  rewrite P1, P2, O1, O2, (reported_ext world' world Hok H).
  rewrite (print_loop_ext world' world); [now split|].
  apply Forall_forall. intros r Hr. apply H. intros E. apply B.
  apply in_map_iff. now exists r.
Qed.

End Root.

Lemma root_is_never_reported_witness :
  let world := Sample.world_of [("root", Sample.modified_synced);
                                ("root/a", Sample.modified_synced)] in
  let args := Sample.plain_args "root" 1 in
  truthy (stale (fst (check_directory world "root"))) = true
  /\ ~ In "root" (map directory (reported world Sample.one_dir args)).
Proof.
  split; [reflexivity|].
  apply (root_is_never_reported
           (Sample.plain_args "root" 1) Sample.one_dir
           (Sample.world_of [("root", Sample.modified_synced);
                             ("root/a", Sample.modified_synced)])).
  reflexivity.
Defined.

(** C7, at a root with the two stale repositories [a] (modified file,
    detached [HEAD]) and [b] (modified file): both results reach the
    printing loop, the query for [a] raises there, and [main] ends with
    the exception having printed no block at all.  With [a] on a branch
    both blocks are printed. *)
Theorem stale_result_without_block :
  let args := Sample.plain_args "root" 1 in
  let broken := Sample.world_of [("root/a", Sample.modified_detached);
                                 ("root/b", Sample.modified_synced)] in
  let sound := Sample.world_of [("root/a", Sample.modified_synced);
                                ("root/b", Sample.modified_synced)] in
  map directory (reported broken Sample.two_dirs args) = ["root/a"; "root/b"]
  /\ printed (main args broken Sample.two_dirs) = []
  /\ outcome (main args broken Sample.two_dirs)
     = Raise (mkExn TypeError "HEAD is a detached symbolic reference")
  /\ outcome (main args sound Sample.two_dirs) = Ok tt
  /\ List.length (printed (main args sound Sample.two_dirs)) = 6%nat.
Proof. cbv. repeat split. Qed.

(* ################################################################## *)
(** * Further properties of the code *)

(* ================================================================== *)
(** ** [insert_indentation] *)

Section Indentation.

Lemma repeat_nat_add (s : string) (n m : nat) :
  PyStr.repeat_nat s (n + m) = PyStr.repeat_nat s n ++ PyStr.repeat_nat s m.
Proof.
  induction n as [|n IH]; simpl; [reflexivity|].
  now rewrite IH, append_assoc.
Qed.

Lemma mem_char_append (c : ascii) (a b : string) :
  PyStr.mem_char c (a ++ b) = (PyStr.mem_char c a || PyStr.mem_char c b)%bool.
Proof.
  induction a as [|x a IH]; simpl; [reflexivity|].
  now rewrite IH, orb_assoc.
Qed.

Lemma mul_no_nl (ind : string) (q : Z) :
  PyStr.mem_char PyStr.LF ind = false ->
  PyStr.mem_char PyStr.LF (PyStr.mul ind q) = false.
Proof.
  intros H. unfold PyStr.mul. induction (Z.to_nat q) as [|n IH]; [reflexivity|].
  cbn [PyStr.repeat_nat]. now rewrite mem_char_append, H, IH.
Qed.

Lemma insert_indentation_as_join (text ind : string) (q : Z) :
  insert_indentation text ind q
  = PyStr.join_lines (map (String.append (PyStr.mul ind q)) (PyStr.split_lines text)).
Proof.
  unfold insert_indentation, PyStr.join_lines. rewrite replace_nl_concat.
  destruct (split_lines_cons text) as [l [ls H]]. rewrite H.
  apply concat_prefixed.
Qed.

(** X1. A quantity of zero or less indents nothing: the text comes back as
    it was, whatever the indentation string. *)
Theorem insert_indentation_nothing (text ind : string) (q : Z) :
  q <= 0 -> insert_indentation text ind q = text.
Proof.
  intros H. rewrite insert_indentation_as_join.
  unfold PyStr.mul. replace (Z.to_nat q) with O by lia. cbn [PyStr.repeat_nat].
  rewrite (map_ext _ (fun l => l)); [|reflexivity].
  rewrite map_id. apply join_split_lines.
Qed.

Lemma insert_indentation_nothing_witness :
  insert_indentation ("a" ++ PyStr.nl ++ "b") "  " (-1) = "a" ++ PyStr.nl ++ "b".
Proof. apply insert_indentation_nothing. lia. Defined.

(** X2. With an indentation that holds no line break, the result has as
    many lines as the text, and its lines are the lines of the text, in
    order, each behind the prefix. *)
Theorem insert_indentation_line_by_line (text ind : string) (q : Z) :
  PyStr.mem_char PyStr.LF ind = false ->
  PyStr.split_lines (insert_indentation text ind q)
  = map (String.append (PyStr.mul ind q)) (PyStr.split_lines text)
  /\ List.length (PyStr.split_lines (insert_indentation text ind q))
     = List.length (PyStr.split_lines text).
Proof.
  intros H. rewrite (insert_indentation_lines text ind q (mul_no_nl ind q H)).
  split; [reflexivity | apply length_map].
Qed.

Lemma insert_indentation_line_by_line_witness :
  PyStr.split_lines (insert_indentation ("a" ++ PyStr.nl ++ "b") "  " 2)
  = ["    a"; "    b"].
Proof.
  apply (insert_indentation_line_by_line ("a" ++ PyStr.nl ++ "b") "  " 2).
  reflexivity.
Defined.

(** X3. Indenting twice is indenting once by the sum: with an indentation
    free of line breaks and quantities that are not negative,
    [insert_indentation (insert_indentation text ind a) ind b] is
    [insert_indentation text ind (a + b)]. *)
Theorem insert_indentation_twice (text ind : string) (a b : Z) :
  PyStr.mem_char PyStr.LF ind = false -> 0 <= a -> 0 <= b ->
  insert_indentation (insert_indentation text ind a) ind b
  = insert_indentation text ind (a + b).
Proof.
  intros H Ha Hb.
  rewrite (insert_indentation_as_join (insert_indentation text ind a)).
  rewrite (insert_indentation_lines text ind a (mul_no_nl ind a H)).
  rewrite insert_indentation_as_join, map_map. f_equal.
  apply map_ext. intros l. rewrite <- append_assoc. f_equal.
  unfold PyStr.mul. replace (Z.to_nat (a + b)) with (Z.to_nat b + Z.to_nat a)%nat by lia.
  now rewrite repeat_nat_add.
Qed.

Lemma insert_indentation_twice_witness :
  insert_indentation (insert_indentation ("a" ++ PyStr.nl ++ "b") "  " 1) "  " 1
  = insert_indentation ("a" ++ PyStr.nl ++ "b") "  " 2.
Proof.
  apply (insert_indentation_twice ("a" ++ PyStr.nl ++ "b") "  " 1 1);
    [reflexivity | lia | lia].
Defined.

End Indentation.

(* ================================================================== *)
(** ** Start-up: depth and verbosity *)

Section Startup.

(** X4. The depth validation clamps and never warns: for every integer the
    effective depth is [max (min depth 99) 1], that is 1 below the range, 99
    above it and the argument itself inside it, no record is logged, and
    validating the result again changes nothing. *)
Theorem depth_is_clamped_silently (d : Z) :
  validate_depth d = (Z.max (Z.min d 99) 1, [])
  /\ (d < 1 -> effective_depth d = 1)
  /\ (99 < d -> effective_depth d = 99)
  /\ (1 <= d <= 99 -> effective_depth d = d)
  /\ effective_depth (effective_depth d) = effective_depth d.
Proof.
  unfold effective_depth. rewrite !validate_depth_eq. cbn [fst].
  repeat split; lia.
Qed.

Lemma depth_is_clamped_silently_witness :
  effective_depth 0 = 1 /\ effective_depth 100 = 99 /\ effective_depth 7 = 7.
Proof.
  split; [|split].
  - apply (proj1 (proj2 (depth_is_clamped_silently 0))). lia.
  - apply (proj1 (proj2 (proj2 (depth_is_clamped_silently 100)))). lia.
  - apply (proj1 (proj2 (proj2 (proj2 (depth_is_clamped_silently 7))))). lia.
Defined.

(** X5. For every count of [-v] (zero or more), records of level error are
    displayed; without [-v] nothing else is; from three [-v] on every
    record is displayed, and more of them change nothing. *)
Theorem verbosity_levels (v : Z) :
  0 <= v ->
  (forall r, log_level r = ERROR -> shown v r = true)
  /\ (v = 0 -> forall r, shown v r = true -> log_level r = ERROR)
  /\ (3 <= v -> forall r, shown v r = true)
  /\ (3 <= v -> effective_level v = effective_level 3).
Proof.
  intros Hv. unfold shown, effective_level, setup_logging.
  repeat split.
  - intros r ->. cbn [level_no].
    destruct (40 - 10 * Z.min 3 v =? 0) eqn:E; apply Z.geb_le; lia.
  - intros -> r. cbn. destruct (log_level r); cbn; congruence.
  - intros H3 r. replace (Z.min 3 v) with 3 by lia. cbn.
    destruct (log_level r); reflexivity.
  - intros H3. now replace (Z.min 3 v) with 3 by lia.
Qed.

Lemma verbosity_levels_witness :
  shown 1 (mkLog ERROR "Error checking directory: x") = true.
Proof.
  apply (proj1 (verbosity_levels 1 ltac:(lia))). reflexivity.
Defined.

End Startup.

(* ================================================================== *)
(** ** The queries on one repository *)

Section MoreQueries.

(** The status query fails exactly when the commit difference fails, and
    otherwise returns a string. *)
Lemma status_of_diff (repo : Git.Repo) :
  match get_repo_commit_diff repo with
  | Raise e => get_repo_status repo = Raise e
  | Ok n => exists s, get_repo_status repo = Ok (PyStr s)
  end.
Proof.
  unfold get_repo_status, get_repo_commit_diff.
  destruct (Git.active_branch repo) as [b|e]; cbn [bind]; [|reflexivity].
  destruct (Z.of_nat (List.length (Git.remotes repo)) =? 0) eqn:L; cbn [bind].
  - now exists "".
  - destruct (Git.remote repo) as [rem|e]; cbn [bind]; [|reflexivity].
    destruct (Git.refs_getitem rem (Git.head_name b)) as [rb|e];
      cbn [bind]; [|reflexivity].
    destruct (negb _); eexists; reflexivity.
Qed.

(** X6. How [get_repo_commit_diff] ends when a query cannot be answered:
    a detached [HEAD] raises before the remotes are looked at; a resolved
    branch without any remote gives 0; remotes none of which is [origin]
    raise [ValueError]; a branch that [origin] does not have raises what
    the look-up of the reference raises. *)
Theorem commit_diff_edges (repo : Git.Repo) :
  (forall e, Git.active_branch repo = Raise e -> get_repo_commit_diff repo = Raise e)
  /\ (forall b, Git.active_branch repo = Ok b -> Git.remotes repo = [] ->
                get_repo_commit_diff repo = Ok 0)
  /\ (forall b, Git.active_branch repo = Ok b -> Git.remotes repo <> [] ->
                Git.find_remote "origin" (Git.remotes repo) = None ->
                get_repo_commit_diff repo
                = Raise (mkExn ValueError "Remote named 'origin' didn't exist"))
  /\ (forall b rem e, Git.active_branch repo = Ok b -> Git.remote repo = Ok rem ->
                      Git.refs_getitem rem (Git.head_name b) = Raise e ->
                      get_repo_commit_diff repo = Raise e).
Proof.
  unfold get_repo_commit_diff. repeat split.
  - now intros e ->.
  - intros b -> Hr. cbn [bind]. now rewrite (proj2 (no_remotes_length repo) Hr).
  - intros b -> Hr Hf. cbn [bind].
    destruct (Z.of_nat (List.length (Git.remotes repo)) =? 0) eqn:L.
    + apply no_remotes_length in L. contradiction.
    + unfold Git.remote. now rewrite Hf.
  - intros b rem e -> Hrem Hf. cbn [bind].
    rewrite (remote_ok_remotes repo rem Hrem), Hrem. cbn [bind]. now rewrite Hf.
Qed.

Lemma commit_diff_edges_witness :
  get_repo_commit_diff Cases.clean_detached
  = Raise (mkExn TypeError "HEAD is a detached symbolic reference")
  /\ get_repo_commit_diff Sample.clean_local = Ok 0
  /\ get_repo_commit_diff Cases.upstream_only
     = Raise (mkExn ValueError "Remote named 'origin' didn't exist")
  /\ get_repo_commit_diff Cases.unpushed
     = Raise (mkExn IndexError "No item found with id 'origin/feature'").
Proof.
  split; [|split; [|split]].
  - apply (proj1 (commit_diff_edges Cases.clean_detached)). reflexivity.
  - apply (proj1 (proj2 (commit_diff_edges Sample.clean_local))
             (Git.mkHead "main" "a1")); reflexivity.
  - apply (proj1 (proj2 (proj2 (commit_diff_edges Cases.upstream_only)))
             (Git.mkHead "main" "a1")); [reflexivity | discriminate | reflexivity].
  - apply (proj2 (proj2 (proj2 (commit_diff_edges Cases.unpushed)))
             (Git.mkHead "feature" "a2") (Sample.origin_at "a1")); reflexivity.
Defined.

(** X7. [get_repo_status] follows [get_repo_commit_diff]: it raises exactly
    what the difference raises; for the difference 0 it returns the empty
    string; for any other difference it returns the sentence that names
    the branch, the word [ahead] (positive) or [behind] (negative), the
    reference on [origin] and the absolute difference. *)
Theorem status_follows_commit_diff (repo : Git.Repo) :
  match get_repo_commit_diff repo with
  | Raise e => get_repo_status repo = Raise e
  | Ok n =>
      if n =? 0 then get_repo_status repo = Ok (PyStr "")
      else exists b rem rb,
          Git.active_branch repo = Ok b
          /\ Git.remote repo = Ok rem
          /\ Git.refs_getitem rem (Git.head_name b) = Ok rb
          /\ get_repo_status repo
             = Ok (PyStr (status_text (if n >? 0 then "ahead" else "behind")
                                      (Git.head_name b) (Git.ref_name rb) n))
  end.
Proof.
  unfold get_repo_status, get_repo_commit_diff.
  destruct (Git.active_branch repo) as [b|e]; cbn [bind]; [|reflexivity].
  destruct (Z.of_nat (List.length (Git.remotes repo)) =? 0) eqn:L; cbn [bind].
  - reflexivity.
  - destruct (Git.remote repo) as [rem|e]; cbn [bind]; [|reflexivity].
    destruct (Git.refs_getitem rem (Git.head_name b)) as [rb|e] eqn:R;
      cbn [bind]; [|reflexivity].
    destruct (Git.count repo _ - Git.count repo _ =? 0) eqn:N; cbn [negb];
      [reflexivity|].
    exists b, rem, rb. repeat split. exact R.
Qed.

End MoreQueries.

(* ================================================================== *)
(** ** The result and the log of one check *)

Section MoreChecks.

Variable world : World.

(** X8. A staged or unstaged change to a tracked file makes the directory
    stale whatever its branch and remotes are (a detached [HEAD] or a
    missing [origin] included): the result is [True] with the unstaged
    paths as modified files and the untracked files as they are, and the
    check logs the debug record and the info record.  A change that is
    staged only gives a stale result with an empty list of modified
    files. *)
Theorem locally_dirty_is_stale (d : string) (repo : Git.Repo) (s m u : list string) :
  world d = Ok repo ->
  Git.bare repo = false ->
  Git.staged repo = Ok s ->
  Git.unstaged repo = Ok m ->
  Git.untracked_files repo = Ok u ->
  s <> [] \/ m <> [] ->
  check_directory world d
  = (mkResult d (PyBool true) "" (mkFiles m u), [entry_record d; dirty_record d]).
Proof.
  intros Hw Hb Hs Hm Hu Hd.
  assert (E : is_repo_dirty repo = Ok (PyBool true)).
  { unfold is_repo_dirty, Git.is_dirty_default, Git.is_dirty.
    rewrite Hb, Hs, Hm. cbn [bind].
    destruct s; cbn [Git.nonempty bind negb]; [|reflexivity].
    destruct m; [destruct Hd; contradiction | reflexivity]. }
  unfold check_directory, check_try, get_repo_modified_files,
    get_repo_untracked_files.
  rewrite Hw. cbn [bind]. rewrite Hm, Hu. cbn [bind]. rewrite E. reflexivity.
Qed.

End MoreChecks.

Lemma locally_dirty_is_stale_witness :
  stale (fst (check_directory
                (Sample.world_of [("root/a", Sample.modified_detached)]) "root/a"))
  = PyBool true
  /\ check_directory (Sample.world_of [("root/a", Cases.staged_local)]) "root/a"
     = (mkResult "root/a" (PyBool true) "" (mkFiles [] []),
        [entry_record "root/a"; dirty_record "root/a"]).
Proof.
  split.
  - rewrite (locally_dirty_is_stale
               (Sample.world_of [("root/a", Sample.modified_detached)]) "root/a"
               Sample.modified_detached [] ["README.md"] []);
      try reflexivity.
    right. discriminate.
  - apply (locally_dirty_is_stale
             (Sample.world_of [("root/a", Cases.staged_local)]) "root/a"
             Cases.staged_local ["setup.py"] [] []);
      try reflexivity.
    left. discriminate.
Defined.

Section MoreChecks2.

Variable world : World.

Lemma clean_is_dirty_default (repo : Git.Repo) :
  Git.staged repo = Ok [] -> Git.unstaged repo = Ok [] ->
  Git.is_dirty_default repo = Ok false.
Proof.
  intros Hs Hm. unfold Git.is_dirty_default, Git.is_dirty.
  destruct (Git.bare repo); [reflexivity|]. now rewrite Hs, Hm.
Qed.

(** X9. With nothing staged and nothing modified, a repository whose
    branch has a counterpart on [origin] is stale exactly when the two
    point to different commits: the result is [False] when they are level
    and [True] otherwise, and the untracked files, listed as they are,
    play no part in it. *)
Theorem clean_repo_stale_when_commits_differ
    (d : string) (repo : Git.Repo) (b : Git.Head) (rem : Git.Remote)
    (rb : Git.RemoteRef) (u : list string) :
  world d = Ok repo ->
  Git.staged repo = Ok [] ->
  Git.unstaged repo = Ok [] ->
  Git.untracked_files repo = Ok u ->
  Git.active_branch repo = Ok b ->
  Git.remote repo = Ok rem ->
  Git.refs_getitem rem (Git.head_name b) = Ok rb ->
  fst (check_directory world d)
  = mkResult d (PyBool (negb (String.eqb (Git.head_commit b) (Git.ref_commit rb))))
             "" (mkFiles [] u).
Proof.
  intros Hw Hs Hm Hu Hb Hrem Href.
  assert (E : is_repo_dirty repo
              = Ok (PyBool (negb (String.eqb (Git.head_commit b) (Git.ref_commit rb))))).
  { unfold is_repo_dirty. rewrite (clean_is_dirty_default repo Hs Hm), Hb.
    cbn [bind negb]. rewrite (remote_ok_remotes repo rem Hrem), Hrem.
    cbn [bind]. now rewrite Href. }
  unfold check_directory, check_try, get_repo_modified_files,
    get_repo_untracked_files.
  rewrite Hw. cbn [bind]. rewrite Hm, Hu. cbn [bind]. rewrite E. reflexivity.
Qed.

(** X10. What a check logs: first the debug record that names the
    directory, then at most one more record; the info record
    [Directory is dirty] is logged exactly when the result is stale, and
    no record has the level warning. *)
Theorem check_directory_log (d : string) :
  exists rest,
    snd (check_directory world d) = entry_record d :: rest
    /\ (List.length rest <= 1)%nat
    /\ (In (dirty_record d) (snd (check_directory world d))
        <-> truthy (stale (fst (check_directory world d))) = true)
    /\ Forall (fun r => log_level r <> WARNING) (snd (check_directory world d)).
Proof.
  unfold check_directory.
  destruct (check_try world d) as [[r logs]|e] eqn:E.
  - unfold check_try in E.
    destruct (world d) as [repo|]; cbn [bind] in E; [|discriminate].
    destruct (get_repo_modified_files repo); cbn [bind] in E; [|discriminate].
    destruct (get_repo_untracked_files repo); cbn [bind] in E; [|discriminate].
    destruct (is_repo_dirty repo) as [v|]; cbn [bind] in E; [|discriminate].
    inv E. cbn [fst snd stale].
    destruct (truthy v); cbn [app].
    + exists [dirty_record d]. repeat split; auto.
      * intros _. right. now left.
      * repeat constructor; discriminate.
    + exists []. repeat split; auto.
      * intros [H|[]]. discriminate.
      * discriminate.
      * repeat constructor; discriminate.
  - assert (N : forall r, log_level r <> INFO -> ~ In (dirty_record d) [entry_record d; r]).
    { intros r Hr [H|[H|[]]]; [discriminate|]. apply Hr. now rewrite H. }
    destruct (exn_cls e); cbn [fst snd app stale not_stale truthy];
      eexists; (split; [reflexivity|]); (split; [simpl; lia|]);
      (split; [split; [intros H; exfalso; revert H; apply N; discriminate
                      | discriminate]
              | repeat constructor; discriminate]).
Qed.

(** X11. The result always carries the path that was checked; and a result
    that is stale comes from a check in which every query was answered:
    its file lists are the repository's unstaged and untracked paths and
    its flag is what [is_repo_dirty] returned. *)
Theorem stale_result_is_faithful (d : string) :
  directory (fst (check_directory world d)) = d
  /\ (truthy (stale (fst (check_directory world d))) = true ->
      exists repo m u,
        world d = Ok repo
        /\ Git.unstaged repo = Ok m
        /\ Git.untracked_files repo = Ok u
        /\ files (fst (check_directory world d)) = mkFiles m u
        /\ is_repo_dirty repo = Ok (stale (fst (check_directory world d)))).
Proof.
  split; [apply check_directory_directory|].
  intros H. destruct (stale_check_ok world d H) as [[r logs] E].
  rewrite (check_directory_ok world d r logs E).
  unfold check_try, get_repo_modified_files, get_repo_untracked_files in E.
  destruct (world d) as [repo|]; cbn [bind] in E; [|discriminate].
  destruct (Git.unstaged repo) as [m|] eqn:Hm; cbn [bind] in E; [|discriminate].
  destruct (Git.untracked_files repo) as [u|] eqn:Hu; cbn [bind] in E;
    [|discriminate].
  destruct (is_repo_dirty repo) as [v|] eqn:Hv; cbn [bind] in E; [|discriminate].
  inv E. exists repo, m, u. repeat split; assumption.
Qed.

(** X12. A repository with nothing staged and nothing modified on a
    detached [HEAD] is not reported as stale: the check ends in the
    [TypeError] of the active branch, returns a result that is not stale
    and logs an error record, which is displayed at every verbosity. *)
Theorem clean_detached_head_is_an_error
    (d : string) (repo : Git.Repo) (u : list string) (e : exn) :
  world d = Ok repo ->
  Git.staged repo = Ok [] ->
  Git.unstaged repo = Ok [] ->
  Git.untracked_files repo = Ok u ->
  Git.active_branch repo = Raise e ->
  exn_cls e = TypeError ->
  check_directory world d
  = (not_stale d,
     [entry_record d; mkLog ERROR ("Error checking directory: " ++ exn_msg e)])
  /\ (forall v, 0 <= v ->
        shown v (mkLog ERROR ("Error checking directory: " ++ exn_msg e)) = true).
Proof.
  intros Hw Hs Hm Hu Hb Hc. split.
  - assert (E : check_try world d = Raise e).
    { unfold check_try, get_repo_modified_files, get_repo_untracked_files.
      rewrite Hw. cbn [bind]. rewrite Hm, Hu. cbn [bind].
      unfold is_repo_dirty. rewrite (clean_is_dirty_default repo Hs Hm), Hb.
      reflexivity. }
    unfold check_directory. rewrite E, Hc. reflexivity.
  - intros v Hv. unfold shown, effective_level, setup_logging. cbn [level_no log_level].
    destruct (40 - 10 * Z.min 3 v =? 0); apply Z.geb_le; lia.
Qed.

End MoreChecks2.

Lemma clean_repo_stale_when_commits_differ_witness :
  fst (check_directory (Sample.world_of [("root/a", Sample.untracked_synced)]) "root/a")
  = mkResult "root/a" (PyBool false) "" (mkFiles [] ["notes.txt"])
  /\ stale (fst (check_directory (Sample.world_of [("root/a", Sample.diverged)]) "root/a"))
     = PyBool true.
Proof.
  split.
  - apply (clean_repo_stale_when_commits_differ
             (Sample.world_of [("root/a", Sample.untracked_synced)]) "root/a"
             Sample.untracked_synced (Git.mkHead "main" "a1") (Sample.origin_at "a1")
             (Git.mkRef "origin/main" "a1") ["notes.txt"]); reflexivity.
  - rewrite (clean_repo_stale_when_commits_differ
               (Sample.world_of [("root/a", Sample.diverged)]) "root/a"
               Sample.diverged (Git.mkHead "main" "a3") (Sample.origin_at "r1")
               (Git.mkRef "origin/main" "r1") []); reflexivity.
Defined.

Lemma stale_result_is_faithful_witness :
  exists repo m u,
    Sample.world_of [("root/a", Sample.modified_synced)] "root/a" = Ok repo
    /\ Git.unstaged repo = Ok m
    /\ Git.untracked_files repo = Ok u
    /\ files (fst (check_directory
                     (Sample.world_of [("root/a", Sample.modified_synced)]) "root/a"))
       = mkFiles m u
    /\ is_repo_dirty repo
       = Ok (stale (fst (check_directory
                           (Sample.world_of [("root/a", Sample.modified_synced)])
                           "root/a"))).
Proof.
  apply (proj2 (stale_result_is_faithful
                  (Sample.world_of [("root/a", Sample.modified_synced)]) "root/a")).
  reflexivity.
Defined.

Lemma clean_detached_head_is_an_error_witness :
  check_directory (Sample.world_of [("root/a", Cases.clean_detached)]) "root/a"
  = (not_stale "root/a",
     [entry_record "root/a";
      mkLog ERROR "Error checking directory: HEAD is a detached symbolic reference"]).
Proof.
  apply (clean_detached_head_is_an_error
           (Sample.world_of [("root/a", Cases.clean_detached)]) "root/a"
           Cases.clean_detached []
           (mkExn TypeError "HEAD is a detached symbolic reference"));
    reflexivity.
Defined.

(* ================================================================== *)
(** ** What is printed *)

Section MoreOutput.

Variable args : Args.

(** X13. How many texts [output_files] prints: none unless both the status
    and the file list are asked for; otherwise one heading and one text
    per name for a non-empty list of modified files, and one blank text,
    one heading and one text per name for a non-empty list of untracked
    files.  The blank text comes before [Untracked:] also when there is no
    [Modified:] part above it. *)
Theorem output_files_count (fl : RepoFiles) :
  List.length (output_files args fl)
  = (if (status args && list_files args)%bool
     then (if Git.nonempty (modified fl) then S (List.length (modified fl)) else 0)
          + (if Git.nonempty (untracked fl)
             then S (S (List.length (untracked fl))) else 0)
     else 0)%nat
  /\ (status args = true -> list_files args = true ->
      modified fl = [] -> untracked fl <> [] ->
      exists rest, output_files args fl = (output_blank args ++ rest)%list).
Proof.
  unfold output_files. destruct fl as [m u]. cbn [modified untracked].
  assert (B : List.length (output_blank args) = 1%nat).
  { unfold output_blank. now destruct (colorize args). }
  split.
  - destruct (status args); cbn [negb andb]; [|reflexivity].
    destruct (list_files args); [|reflexivity].
    destruct m as [|x m]; destruct u as [|y u]; cbn [Git.nonempty];
      try reflexivity;
      change (Z.of_nat (List.length (@nil string)) =? 0) with true;
      change (Z.of_nat (List.length (@nil string)) >? 0) with false;
      cbn [andb];
      repeat match goal with
             | |- context [Z.of_nat (List.length (?a :: ?l)) =? 0] =>
                 replace (Z.of_nat (List.length (a :: l)) =? 0) with false
                 by (symmetry; apply Z.eqb_neq; simpl; lia)
             | |- context [Z.of_nat (List.length (?a :: ?l)) >? 0] =>
                 replace (Z.of_nat (List.length (a :: l)) >? 0) with true
                 by (symmetry; apply Z.gtb_lt; simpl; lia)
             end;
      cbn [andb]; unfold output_names;
      repeat (rewrite ?length_app, ?length_map, ?B; cbn [List.length]); lia.
  - intros -> -> -> Hu. cbn [negb]. destruct u as [|y u]; [contradiction|].
    change (Z.of_nat (List.length (@nil string)) =? 0) with true.
    change (Z.of_nat (List.length (@nil string)) >? 0) with false.
    replace (Z.of_nat (List.length (y :: u)) =? 0) with false
      by (symmetry; apply Z.eqb_neq; simpl; lia).
    replace (Z.of_nat (List.length (y :: u)) >? 0) with true
      by (symmetry; apply Z.gtb_lt; simpl; lia).
    cbn [andb app]. eexists. reflexivity.
Qed.

Variable world : World.

(** A turn of the printing loop that raises has printed nothing. *)
Lemma report_raise_silent (r : StaleResult) (e : exn) :
  snd (report args world r) = Raise e -> fst (report args world r) = [].
Proof.
  unfold report.
  destruct (world (directory r)) as [repo|e0]; cbn [bind]; [|reflexivity].
  pose proof (status_of_diff repo) as S.
  destruct (get_repo_commit_diff repo) as [n|e1].
  - destruct S as [s ->]. unfold output_status.
    destruct (status args); cbn [negb snd]; discriminate.
  - now rewrite S.
Qed.

(** X14. A turn of the printing loop prints a whole block or nothing.  When
    the directory opens and its commit difference is computed, the block
    is the header, one status text (none with [--no-status]), the file
    list and the blank text, and the turn ends normally; otherwise the
    turn raises what the query raised and has printed nothing.  The
    status is always a string, so [status.strip()] cannot fail. *)
Theorem report_all_or_nothing (r : StaleResult) :
  match (repo <- world (directory r) ;; get_repo_commit_diff repo) with
  | Raise e => report args world r = ([], Raise e)
  | Ok diff =>
      exists lines,
        report args world r
        = ((output_repo args r diff ++ lines ++ output_files args (files r)
              ++ output_blank args)%list, Ok tt)
        /\ List.length lines = (if status args then 1 else 0)%nat
  end.
Proof.
  unfold report.
  destruct (world (directory r)) as [repo|e0]; cbn [bind]; [|reflexivity].
  pose proof (status_of_diff repo) as S.
  destruct (get_repo_commit_diff repo) as [n|e1].
  - destruct S as [s ->]. unfold output_status.
    destruct (status args); cbn [negb]; eexists; split; reflexivity.
  - now rewrite S.
Qed.


(** Over stale results, the loop prints the blocks of the results before
    the first failing one, and ends normally when there is none. *)
Lemma print_loop_prefix (rs : list StaleResult) :
  Forall (fun r => truthy (stale r) = true) rs ->
  fst (print_loop args world rs)
  = List.concat (map (block args world) (printed_prefix args world rs))
  /\ (snd (print_loop args world rs) = Ok tt <-> printed_prefix args world rs = rs).
Proof.
  induction 1 as [|r rs Hr _ [IH1 IH2]]; [now split|].
  cbn [print_loop printed_prefix]. rewrite Hr. cbn [negb].
  pose proof (report_raise_silent r) as Q.
  assert (Bk : block args world r = fst (report args world r)) by reflexivity.
  destruct (report args world r) as [out [[]|e]]; cbn [snd fst] in *.
  - destruct (print_loop args world rs) as [out' o]. cbn [fst snd] in *.
    cbn [map List.concat]. rewrite Bk, IH1. split; [reflexivity|].
    rewrite IH2. split; [intros E; now rewrite E | intros E].
    injection E as E. exact E.
  - rewrite (Q e eq_refl). split; [reflexivity|]. split; discriminate.
Qed.

Lemma printed_prefix_is_prefix (rs : list StaleResult) :
  exists rest, rs = (printed_prefix args world rs ++ rest)%list.
Proof.
  induction rs as [|r rs [rest IH]]; [now exists []|].
  cbn [printed_prefix]. destruct (snd (report args world r)).
  - exists rest. cbn [app]. now rewrite <- IH.
  - now exists (r :: rs).
Qed.

Variable tree : Tree.

(** X16. The output of [main] in every run: the blocks, whole, of the
    reported results that come before the first one whose queries fail,
    and nothing after them; [main] ends normally exactly when no reported
    result fails. *)
Theorem output_stops_at_first_failure :
  printed (main args world tree)
  = List.concat (map (block args world)
                     (printed_prefix args world (reported world tree args)))
  /\ (outcome (main args world tree) = Ok tt
      <-> printed_prefix args world (reported world tree args)
          = reported world tree args)
  /\ (exists rest,
        reported world tree args
        = (printed_prefix args world (reported world tree args) ++ rest)%list).
Proof.
  destruct (main_printed args world tree) as [P O]. rewrite P, O.
  destruct (print_loop_prefix _ (reported_stale args world tree)) as [A B].
  split; [exact A|]. split; [exact B | apply printed_prefix_is_prefix].
Qed.

(** X17. The results that reach the printing loop are the stale results of
    the walk, each as often as the walk found it, in the order of their
    paths; there are no more of them than directories checked. *)
Theorem reported_are_stale_in_path_order :
  StronglySorted by_directory (reported world tree args)
  /\ Permutation (reported world tree args)
                 (filter (fun r => truthy (stale r))
                         (scan world tree (root args) (depth args)))
  /\ Forall (fun r => truthy (stale r) = true) (reported world tree args)
  /\ (List.length (reported world tree args)
      <= List.length (checked_dirs tree (root args) (depth args)))%nat.
Proof.
  split; [apply sort_results_sorted|].
  split; [symmetry; apply sort_results_perm|].
  split; [apply reported_stale|].
  unfold reported, checked_dirs.
  rewrite <- (Permutation_length (sort_results_perm _)).
  rewrite length_map, !scan_results, !length_map.
  rewrite <- (length_map (fun p => fst (check_directory world p))
                         (loop_paths (walk (root args) tree) 0 (depth args))).
  apply filter_length_le.
Qed.

(** Without a stale result there is no output. *)
Lemma no_stale_no_output :
  (forall p, In p (loop_paths (walk (root args) tree) 0 (depth args)) ->
             truthy (stale (fst (check_directory world p))) = false) ->
  reported world tree args = [].
Proof.
  intros H. unfold reported. rewrite scan_results.
  induction (loop_paths (walk (root args) tree) 0 (depth args)) as [|p l IH];
    [reflexivity|].
  cbn [map filter]. rewrite (H p (or_introl eq_refl)).
  apply IH. intros q Hq. apply H. now right.
Qed.

(** X18. When no checked directory is stale (none is a repository, or all
    are clean and level with [origin]), [main] prints nothing and ends
    normally. *)
Theorem nothing_stale_prints_nothing :
  (forall p, In p (checked_dirs tree (root args) (depth args)) ->
             truthy (stale (fst (check_directory world p))) = false) ->
  printed (main args world tree) = [] /\ outcome (main args world tree) = Ok tt.
Proof.
  intros H. destruct (main_printed args world tree) as [P O]. rewrite P, O.
  rewrite no_stale_no_output; [now split|].
  intros p Hp. apply H. unfold checked_dirs. now rewrite scan_directories.
Qed.

End MoreOutput.

Lemma output_files_count_witness :
  exists rest,
    output_files Cases.listing_args (mkFiles [] ["notes.txt"]) = ("" :: rest)%list.
Proof.
  apply (proj2 (output_files_count Cases.listing_args (mkFiles [] ["notes.txt"])));
    [reflexivity | reflexivity | reflexivity | discriminate].
Defined.


Lemma nothing_stale_prints_nothing_witness :
  printed (main (Sample.plain_args "root" 2)
                (Sample.world_of [("root/a", Sample.clean_synced)])
                Sample.two_branches) = [].
Proof.
  apply (nothing_stale_prints_nothing
           (Sample.plain_args "root" 2)
           (Sample.world_of [("root/a", Sample.clean_synced)])
           Sample.two_branches).
  intros p Hp. cbv in Hp.
  repeat (destruct Hp as [<-|Hp]; [reflexivity|]). contradiction.
Defined.

(* ================================================================== *)
(** ** Which directories are checked *)

Section MoreWalk.

Variable world : World.
Variable tree : Tree.
Variable root_directory : string.

Lemma scan_paths (d : Z) :
  map directory (scan world tree root_directory d)
  = flat_map triple_paths
             (firstn (Z.to_nat (Z.max 1 d)) (walk root_directory tree)).
Proof.
  rewrite scan_directories, loop_paths_firstn. now rewrite Z.sub_0_r.
Qed.

(** X19. The depth counts directories, not levels: the walk checks the
    sub-directories of the first [max 1 depth] directories that [os.walk]
    yields (the root, then its first entry, then that entry's first entry,
    and so on, top-down), in that order, one result for each, whatever
    the checks find. *)
Theorem walk_checks_first_directories (d : Z) :
  map directory (scan world tree root_directory d)
  = flat_map triple_paths
             (firstn (Z.to_nat (Z.max 1 d)) (walk root_directory tree))
  /\ scan world tree root_directory d
     = map (fun p => fst (check_directory world p))
           (flat_map triple_paths
                     (firstn (Z.to_nat (Z.max 1 d)) (walk root_directory tree))).
Proof.
  split; [apply scan_paths|].
  rewrite scan_results, loop_paths_firstn. now rewrite Z.sub_0_r.
Qed.

(** X20. No directory beyond the depth bound is checked: for a depth of at
    least 1, every result of the walk is for a directory within that many
    levels below the root. *)
Theorem checks_stay_within_depth (d : Z) :
  1 <= d ->
  incl (map directory (scan world tree root_directory d))
       (within_levels (Z.to_nat d) root_directory tree).
Proof.
  intros Hd p Hp. rewrite scan_paths in Hp.
  apply in_flat_map in Hp. destruct Hp as [tr [Htr Hp]].
  apply (firstn_walk_within _ _ _ tr); [|exact Hp].
  now replace (Z.max 1 d) with d in Htr by lia.
Qed.

(** X21. With a depth of 1 or less (the default is 1) the walk checks the
    entries of the root, all of them and nothing else, in listing order. *)
Theorem depth_one_checks_the_entries (d : Z) :
  d <= 1 ->
  map directory (scan world tree root_directory d)
  = within_levels 1 root_directory tree.
Proof.
  intros Hd. rewrite scan_paths. replace (Z.max 1 d) with 1 by lia.
  destruct tree as [|entries]; [reflexivity|].
  change (Z.to_nat 1) with 1%nat. cbn [walk firstn flat_map within_levels].
  unfold triple_paths. cbn [fst snd]. rewrite app_nil_r, map_map.
  induction entries as [|e es IH]; simpl; [reflexivity | now rewrite IH].
Qed.

Lemma firstn_le_prefix {A : Type} (n m : nat) (l : list A) :
  (n <= m)%nat -> exists rest, firstn m l = (firstn n l ++ rest)%list.
Proof.
  revert m l. induction n as [|n IH]; intros m l H.
  - now exists (firstn m l).
  - destruct m as [|m]; [lia|]. destruct l as [|x l]; [now exists []|].
    destruct (IH m l) as [rest E]; [lia|].
    exists rest. cbn [firstn app]. now rewrite E.
Qed.

(** X22. A greater depth only adds checks: for [d <= d'] the results of the
    walk at depth [d] are the first results of the walk at depth [d'], in
    the same order. *)
Theorem deeper_walk_extends (d d' : Z) :
  d <= d' ->
  exists rest,
    scan world tree root_directory d'
    = (scan world tree root_directory d ++ rest)%list.
Proof.
  intros H. rewrite !scan_results, !loop_paths_firstn, !Z.sub_0_r.
  destruct (firstn_le_prefix (Z.to_nat (Z.max 1 d)) (Z.to_nat (Z.max 1 d'))
                             (walk root_directory tree)) as [rest E]; [lia|].
  rewrite E, flat_map_app, map_app. eexists. reflexivity.
Qed.

Lemma within_levels_listed (n : nat) :
  forall (top : string) (t : Tree),
    incl (within_levels n top t) (flat_map triple_paths (walk top t)).
Proof.
  induction n as [|n IH]; intros top t p Hp; [contradiction|].
  destruct t as [|entries]; [contradiction|].
  cbn [within_levels] in Hp. apply in_flat_map in Hp.
  destruct Hp as [e [He Hp]].
  cbn [walk flat_map]. apply in_or_app. destruct Hp as [<-|Hp].
  - left. unfold triple_paths. cbn [fst snd]. rewrite map_map.
    apply in_map_iff. now exists e.
  - right. apply IH in Hp. apply in_flat_map in Hp. destruct Hp as [tr [Htr Hp]].
    apply in_flat_map. exists tr. split; [|exact Hp].
    apply in_flat_map. now exists e.
Qed.

(** X23. A depth that is at least the number of directories [os.walk] can
    list covers the whole tree: the walk then checks the sub-directories
    of every listed directory, and so every sub-directory at every level. *)
Theorem large_depth_checks_everything (d : Z) :
  Z.of_nat (List.length (walk root_directory tree)) <= d ->
  map directory (scan world tree root_directory d)
  = flat_map triple_paths (walk root_directory tree)
  /\ (forall n, incl (within_levels n root_directory tree)
                     (map directory (scan world tree root_directory d))).
Proof.
  intros H.
  assert (E : map directory (scan world tree root_directory d)
              = flat_map triple_paths (walk root_directory tree)).
  { rewrite scan_paths. rewrite firstn_all2; [reflexivity | lia]. }
  split; [exact E|]. intros n. rewrite E. apply within_levels_listed.
Qed.

End MoreWalk.

Lemma checks_stay_within_depth_witness :
  incl (map directory (scan (Sample.world_of []) Sample.two_branches "root" 2))
       (within_levels 2 "root" Sample.two_branches).
Proof.
  apply (checks_stay_within_depth (Sample.world_of []) Sample.two_branches "root" 2).
  lia.
Defined.

Lemma depth_one_checks_the_entries_witness :
  map directory (scan (Sample.world_of []) Sample.two_branches "root" 0)
  = ["root/a"; "root/b"].
Proof.
  apply (depth_one_checks_the_entries (Sample.world_of []) Sample.two_branches "root" 0).
  lia.
Defined.

Lemma deeper_walk_extends_witness :
  exists rest,
    scan (Sample.world_of []) Sample.two_branches "root" 3
    = (scan (Sample.world_of []) Sample.two_branches "root" 2 ++ rest)%list.
Proof.
  apply (deeper_walk_extends (Sample.world_of []) Sample.two_branches "root" 2 3).
  lia.
Defined.

Lemma large_depth_checks_everything_witness :
  map directory (scan (Sample.world_of []) Sample.two_branches "root" 5)
  = ["root/a"; "root/b"; "root/a/a1"; "root/b/b1"].
Proof.
  apply (large_depth_checks_everything (Sample.world_of []) Sample.two_branches "root" 5).
  simpl. lia.
Defined.
